(** * Tic-tac-toe: move processing and game-over detection

    A shallow embedding of the TypeScript game engine.

    - [Current] embeds the engine as shipped by the interactive-gameplay
      feature: [models/board.ts], [models/game-state.ts],
      [constants/game-config.ts], [engine/move-validator.ts] and
      [engine/state-transitions.ts].
    - [GameOver] embeds the game-over detection feature as written in its
      quickstart: the extended [game-config.ts] and [game-state.ts],
      [engine/win-detector.ts], and the extended [processMove] and
      [validateMove].

    JavaScript numbers used as coordinates and indices are modelled as [Z];
    [null] is [None]; a [TypeError] raised by reading a property of
    [undefined] is the [Throw] outcome of the [Exc] monad. *)

From Stdlib Require Import ZArith List Bool Lia Sorted.
Import ListNotations.
Open Scope Z_scope.

(** ** Types shared by both versions *)

(** [PlayerSymbol = 'X' | 'O'] (constants/game-config.ts). *)
Inductive PlayerSymbol : Type := X | O.

(** [GamePieceValue = "X" | "O" | null] (models/board.ts). *)
Definition GamePieceValue : Type := option PlayerSymbol.

(** [interface CellPosition { row: number; col: number }]. *)
Record CellPosition : Type := mkPos { row : Z; col : Z }.

Definition PlayerSymbol_eqb (a b : PlayerSymbol) : bool :=
  match a, b with
  | X, X | O, O => true
  | _, _ => false
  end.

(** [cell.piece === player], the left side possibly [null]. *)
Definition piece_is (v : GamePieceValue) (player : PlayerSymbol) : bool :=
  match v with
  | Some s => PlayerSymbol_eqb s player
  | None => false
  end.

(** [a.row === b.row && a.col === b.col]. *)
Definition samePosition (a b : CellPosition) : bool :=
  (row a =? row b) && (col a =? col b).

(** [switchTurn] (engine/state-transitions.ts). *)
Definition switchTurn (current : PlayerSymbol) : PlayerSymbol :=
  match current with
  | X => O
  | O => X
  end.

(** Array indexing [xs[i]] with a number index: [undefined] out of range. *)
Definition znth {A : Type} (xs : list A) (i : Z) : option A :=
  if i <? 0 then None else nth_error xs (Z.to_nat i).

(** The indices [0, 1, ..., n-1] visited by [for (let i = 0; i < n; i++)]. *)
Definition upto (n : nat) : list Z := map Z.of_nat (seq 0 n).

(** [GAME_CONFIG.GRID_SIZE]. *)
Definition GRID_SIZE : Z := 3.

(** ** The engine as shipped *)

Module Current.

(** [MoveFailureReason] of constants/game-config.ts. *)
Inductive MoveFailureReason : Type :=
| cell_occupied
| move_in_progress
| invalid_position
| board_full.

(** [MoveResult] of models/game-state.ts. *)
Inductive MoveResult : Type :=
| Success
| Failure (reason : MoveFailureReason).

Record Cell : Type := mkCell {
  value : GamePieceValue;
  position : CellPosition
}.

Record Board : Type := mkBoard {
  cells : list Cell;
  size : Z
}.

Record GameState : Type := mkState {
  board : Board;
  currentTurn : PlayerSymbol;
  moveInProgress : bool
}.

(** [createEmptyBoard]: the two nested loops push the cells row by row. *)
Definition createEmptyBoard (n : Z) : Board :=
  {| cells :=
       flat_map
         (fun r => map (fun c => {| value := None; position := mkPos r c |})
                       (upto (Z.to_nat n)))
         (upto (Z.to_nat n));
     size := n |}.

(** [isValidBoard]. *)
Definition isValidBoard (b : Board) : bool :=
  (Z.of_nat (length (cells b)) =? size b * size b)
  && forallb
       (fun cell =>
          (row (position cell) >=? 0)
          && (row (position cell) <? size b)
          && (col (position cell) >=? 0)
          && (col (position cell) <? size b))
       (cells b).

(** [createInitialGameState] (engine/game-engine.ts). *)
Definition createInitialGameState : GameState :=
  {| board := createEmptyBoard GRID_SIZE; currentTurn := X; moveInProgress := false |}.

(** [validateMove] (engine/move-validator.ts). *)
Definition validateMove (state : GameState) (pos : CellPosition) : MoveResult :=
  if moveInProgress state then Failure move_in_progress
  else if (row pos <? 0)
          || (row pos >=? size (board state))
          || (col pos <? 0)
          || (col pos >=? size (board state))
  then Failure invalid_position
  else
    match find (fun c => samePosition (position c) pos) (cells (board state)) with
    | Some cell =>
        match value cell with
        | Some _ => Failure cell_occupied
        | None => Success
        end
    | None => Success
    end.

(** The callback of [board.cells.map] in [updateBoardWithMove]. *)
Definition placeAt (pos : CellPosition) (symbol : PlayerSymbol) (cell : Cell) : Cell :=
  if samePosition (position cell) pos
  then {| value := Some symbol; position := position cell |}
  else cell.

(** [updateBoardWithMove] (engine/state-transitions.ts). *)
Definition updateBoardWithMove
    (b : Board) (pos : CellPosition) (symbol : PlayerSymbol) : Board :=
  {| cells := map (placeAt pos symbol) (cells b); size := size b |}.

(** [processMove] (engine/state-transitions.ts). *)
Definition processMove (state : GameState) (pos : CellPosition) : GameState :=
  match validateMove state pos with
  | Failure _ => state
  | Success =>
      let newBoard := updateBoardWithMove (board state) pos (currentTurn state) in
      {| board := newBoard;
         currentTurn := switchTurn (currentTurn state);
         moveInProgress := false |}
  end.

End Current.

(** ** The game-over detection feature *)

Module GameOver.

(** [GameStatus] (extended constants/game-config.ts). *)
Inductive GameStatus : Type := ACTIVE | X_WON | O_WON | DRAW.

(** [MoveFailureReason], extended with ['game-over']. *)
Inductive MoveFailureReason : Type :=
| cell_occupied
| move_in_progress
| invalid_position
| board_full
| game_over.

Inductive MoveResult : Type :=
| Success
| Failure (reason : MoveFailureReason).

(** Outcome of a call: a returned value or a thrown [TypeError]. *)
Inductive Exc (A : Type) : Type :=
| Ret (a : A)
| Throw.
Arguments Ret {A} a.
Arguments Throw {A}.

Definition bind {A B : Type} (m : Exc A) (k : A -> Exc B) : Exc B :=
  match m with
  | Ret a => k a
  | Throw => Throw
  end.

Notation "x <- m ;; k" := (bind m (fun x => k))
  (at level 61, m at next level, right associativity).

(** The win-detector contract: [Cell: { piece: GamePiece | null }] and
    [Board]: a 2D array of cells, [board.length] rows. *)
Record Cell : Type := mkCell { piece : GamePieceValue }.

Definition Board : Type := list (list Cell).

(** [WinResult] (engine/win-detector.ts). *)
Record WinResult : Type := mkWin {
  winner : PlayerSymbol;
  winningLine : list CellPosition
}.

(** [GameState] with the two new fields; the optional [winningLine] of the
    state is [stateWinningLine] here, [None] when absent. *)
Record GameState : Type := mkState {
  board : Board;
  currentTurn : PlayerSymbol;
  moveInProgress : bool;
  status : GameStatus;
  stateWinningLine : option (list CellPosition)
}.

Definition GameStatus_eqb (a b : GameStatus) : bool :=
  match a, b with
  | ACTIVE, ACTIVE | X_WON, X_WON | O_WON, O_WON | DRAW, DRAW => true
  | _, _ => false
  end.

(** [WIN_PATTERNS]: rows 0-2, columns 3-5, main diagonal 6, anti-diagonal 7. *)
Definition WIN_PATTERNS : list (list CellPosition) :=
  [ [mkPos 0 0; mkPos 0 1; mkPos 0 2];
    [mkPos 1 0; mkPos 1 1; mkPos 1 2];
    [mkPos 2 0; mkPos 2 1; mkPos 2 2];
    [mkPos 0 0; mkPos 1 0; mkPos 2 0];
    [mkPos 0 1; mkPos 1 1; mkPos 2 1];
    [mkPos 0 2; mkPos 1 2; mkPos 2 2];
    [mkPos 0 0; mkPos 1 1; mkPos 2 2];
    [mkPos 0 2; mkPos 1 1; mkPos 2 0] ].

(** Modelled from the spec: [getCell] of the feature's models/board.ts is
    not among the sources.  The board is "addressable by (row, col)" and the
    contract lists [getCell(board, row, col)] as the accessor of the 2D
    array, so it is [board[row][col]]; [None] stands for a row or a cell
    that does not exist, on which every caller's [.piece] throws. *)
Definition getCell (b : Board) (r c : Z) : option Cell :=
  match znth b r with
  | Some cellsOfRow => znth cellsOfRow c
  | None => None
  end.

(** Replacement of the element at an index; out of range nothing changes. *)
Fixpoint replaceNth {A : Type} (xs : list A) (n : nat) (a : A) : list A :=
  match xs, n with
  | [], _ => []
  | _ :: rest, Datatypes.O => a :: rest
  | x :: rest, S n' => x :: replaceNth rest n' a
  end.

Definition writeCell (b : Board) (r c : Z) (v : GamePieceValue) : Board :=
  if (r <? 0) || (c <? 0) then b
  else
    match nth_error b (Z.to_nat r) with
    | Some cellsOfRow =>
        replaceNth b (Z.to_nat r)
          (replaceNth cellsOfRow (Z.to_nat c) {| piece := v |})
    | None => b
    end.

(** Modelled from the spec: [setCellValue] of the feature's models/board.ts
    is not among the sources.  "Each accepted move ... replaces the state by
    placing a mark": the board that results holds the symbol at
    [(row, col)] and is otherwise the board given.  [processMove] calls it
    only at a position where [validateMove] has just read a cell. *)
Definition setCellValue (b : Board) (r c : Z) (symbol : PlayerSymbol) : Board :=
  writeCell b r c (Some symbol).

(** [isValidPosition] (data model of the feature). *)
Definition isValidPosition (pos : CellPosition) (gridSize : Z) : bool :=
  (row pos >=? 0) && (row pos <? gridSize)
  && (col pos >=? 0) && (col pos <? gridSize).

(** [getRelevantPatternIndices] (engine/win-detector.ts). *)
Definition getRelevantPatternIndices (lastMove : CellPosition) : list Z :=
  let indices := [row lastMove; 3 + col lastMove] in
  let indices :=
    if row lastMove =? col lastMove then indices ++ [6] else indices in
  let indices :=
    if row lastMove + col lastMove =? 2 then indices ++ [7] else indices in
  indices.

(** [isWinningLine]: [pattern.every(...)], stopping at the first mismatch. *)
Fixpoint isWinningLine
    (b : Board) (pattern : list CellPosition) (player : PlayerSymbol) : Exc bool :=
  match pattern with
  | [] => Ret true
  | pos :: rest =>
      match getCell b (row pos) (col pos) with
      | None => Throw
      | Some cell =>
          if piece_is (piece cell) player
          then isWinningLine b rest player
          else Ret false
      end
  end.

(** The [for ... of relevantIndices] loop of [checkWin]. *)
Fixpoint checkWinLoop
    (b : Board) (player : PlayerSymbol) (indices : list Z) : Exc (option WinResult) :=
  match indices with
  | [] => Ret None
  | patternIndex :: rest =>
      match znth WIN_PATTERNS patternIndex with
      | None => Throw
      | Some pattern =>
          won <- isWinningLine b pattern player ;;
          if won
          then Ret (Some {| winner := player; winningLine := pattern |})
          else checkWinLoop b player rest
      end
  end.

(** [checkWin] (engine/win-detector.ts). *)
Definition checkWin (b : Board) (lastMove : CellPosition) : Exc (option WinResult) :=
  match getCell b (row lastMove) (col lastMove) with
  | None => Throw
  | Some cell =>
      match piece cell with
      | None => Ret None
      | Some player => checkWinLoop b player (getRelevantPatternIndices lastMove)
      end
  end.

(** Inner loop of [checkDraw] over the columns of one row: [Ret false] is
    the early [return false]. *)
Fixpoint checkDrawCols (b : Board) (r : Z) (cols : list Z) : Exc bool :=
  match cols with
  | [] => Ret true
  | c :: rest =>
      match getCell b r c with
      | None => Throw
      | Some cell =>
          match piece cell with
          | None => Ret false
          | Some _ => checkDrawCols b r rest
          end
      end
  end.

(** Outer loop of [checkDraw] over the rows. *)
Fixpoint checkDrawRows (b : Board) (rows cols : list Z) : Exc bool :=
  match rows with
  | [] => Ret true
  | r :: rest =>
      filled <- checkDrawCols b r cols ;;
      if filled then checkDrawRows b rest cols else Ret false
  end.

(** [checkDraw] (engine/win-detector.ts), [gridSize = board.length]. *)
Definition checkDraw (b : Board) : Exc bool :=
  let gridSize := length b in
  checkDrawRows b (upto gridSize) (upto gridSize).

(** [validateMove], extended with the status check. *)
Definition validateMove (state : GameState) (pos : CellPosition) : Exc MoveResult :=
  if negb (GameStatus_eqb (status state) ACTIVE) then Ret (Failure game_over)
  else if moveInProgress state then Ret (Failure move_in_progress)
  else if negb (isValidPosition pos GRID_SIZE) then Ret (Failure invalid_position)
  else
    match getCell (board state) (row pos) (col pos) with
    | None => Throw
    | Some cell =>
        match piece cell with
        | Some _ => Ret (Failure cell_occupied)
        | None => Ret Success
        end
    end.

(** [processMove], extended with win and draw detection.  The copy
    [state.board.map(row => [...row])] is the board itself in a functional
    model; the spread [...state] keeps the fields that are not listed. *)
Definition processMove (state : GameState) (pos : CellPosition) : Exc GameState :=
  validation <- validateMove state pos ;;
  match validation with
  | Failure _ => Ret state
  | Success =>
      let newBoard :=
        setCellValue (board state) (row pos) (col pos) (currentTurn state) in
      winResult <- checkWin newBoard pos ;;
      match winResult with
      | Some result =>
          Ret {| board := newBoard;
                 currentTurn := currentTurn state;
                 moveInProgress := false;
                 status := match winner result with X => X_WON | O => O_WON end;
                 stateWinningLine := Some (winningLine result) |}
      | None =>
          draw <- checkDraw newBoard ;;
          if draw
          then Ret {| board := newBoard;
                      currentTurn := currentTurn state;
                      moveInProgress := false;
                      status := DRAW;
                      stateWinningLine := stateWinningLine state |}
          else Ret {| board := newBoard;
                      currentTurn := switchTurn (currentTurn state);
                      moveInProgress := false;
                      status := ACTIVE;
                      stateWinningLine := stateWinningLine state |}
      end
  end.

(** A run of [processMove] over successive positions. *)
Fixpoint processMoves (state : GameState) (moves : list CellPosition) : Exc GameState :=
  match moves with
  | [] => Ret state
  | pos :: rest =>
      next <- processMove state pos ;;
      processMoves next rest
  end.

(** [createEmptyBoard] as the feature's tests use it: [n] rows of [n]
    empty cells. *)
Definition createEmptyBoard (n : Z) : Board :=
  map (fun _ => map (fun _ => {| piece := None |}) (upto (Z.to_nat n)))
      (upto (Z.to_nat n)).

(** [createInitialGameState] (data model of the feature). *)
Definition createInitialGameState : GameState :=
  {| board := createEmptyBoard GRID_SIZE;
     currentTurn := X;
     moveInProgress := false;
     status := ACTIVE;
     stateWinningLine := None |}.

End GameOver.

(** ** Vocabulary of the statements *)

Module Spec.
Import GameOver.

(** A position of the 3x3 grid: both coordinates in [0,2]. *)
Definition inBounds (pos : CellPosition) : Prop :=
  0 <= row pos <= 2 /\ 0 <= col pos <= 2.

(** The board invariant: three rows of three cells. *)
Definition wfBoard (b : Board) : Prop :=
  length b = 3%nat /\ Forall (fun cellsOfRow => length cellsOfRow = 3%nat) b.

(** What the cell at a position holds; nothing when there is no cell. *)
Definition pieceAt (b : Board) (pos : CellPosition) : GamePieceValue :=
  match getCell b (row pos) (col pos) with
  | Some cell => piece cell
  | None => None
  end.

(** All the cells of a pattern hold the symbol. *)
Definition heldBy (b : Board) (pattern : list CellPosition) (s : PlayerSymbol) : bool :=
  forallb (fun pos => piece_is (pieceAt b pos) s) pattern.

(** The naive full scan, after the words of the specification: some one of
    the 8 [WIN_PATTERNS] is fully occupied by a single non-empty symbol. *)
Definition naiveScan (b : Board) : bool :=
  existsb (fun pattern => heldBy b pattern X || heldBy b pattern O) WIN_PATTERNS.

(** Every one of the 9 cells is non-empty. *)
Definition boardFull (b : Board) : Prop :=
  forall pos, inBounds pos -> pieceAt b pos <> None.

(** No cell of the board is empty, as a boolean. *)
Definition allFilled (b : Board) : bool :=
  forallb
    (forallb (fun cell => match piece cell with Some _ => true | None => false end))
    b.

(** The board with the cell at a position emptied. *)
Definition emptied (b : Board) (pos : CellPosition) : Board :=
  writeCell b (row pos) (col pos) None.

(** The terminal status of a win by the given player. *)
Definition wonStatus (s : PlayerSymbol) : GameStatus :=
  match s with
  | X => X_WON
  | O => O_WON
  end.

(** Two lines are equal as sets of positions. *)
Definition sameLine (l1 l2 : list CellPosition) : Prop :=
  forall pos, In pos l1 <-> In pos l2.

(** The first pattern, in the order of the indices given, that the player
    holds: what the loop of [checkWin] finds when nothing throws. *)
Fixpoint firstHeld (b : Board) (s : PlayerSymbol) (indices : list Z) : option WinResult :=
  match indices with
  | [] => None
  | i :: rest =>
      match znth WIN_PATTERNS i with
      | Some pattern =>
          if heldBy b pattern s
          then Some {| winner := s; winningLine := pattern |}
          else firstHeld b s rest
      | None => None
      end
  end.

(** The 4 corner cells, the center cell and the 4 edge cells. *)
Definition corners : list CellPosition :=
  [mkPos 0 0; mkPos 0 2; mkPos 2 0; mkPos 2 2].

Definition center : CellPosition := mkPos 1 1.

Definition edges : list CellPosition :=
  [mkPos 0 1; mkPos 1 0; mkPos 1 2; mkPos 2 1].

(** A board written row by row, for examples. *)
Definition boardOf (rows : list (list GamePieceValue)) : Board :=
  map (map mkCell) rows.

End Spec.

(** ** Boards and states of the scenarios *)

Module Scenarios.
Import Spec.

(** A state of the shipped engine whose move lock is set. *)
Definition lockedState : Current.GameState :=
  {| Current.board := Current.createEmptyBoard GRID_SIZE;
     Current.currentTurn := X;
     Current.moveInProgress := true |}.

(** A board of the shipped engine with X on the first cell. *)
Definition openedBoard : Current.Board :=
  Current.updateBoardWithMove (Current.createEmptyBoard GRID_SIZE) (mkPos 0 0) X.

(** X holds the top row and the left column; O the four other cells. *)
Definition crossBoard : GameOver.Board :=
  boardOf [[Some X; Some X; Some X];
           [Some X; Some O; Some O];
           [Some X; Some O; Some O]].

(** Eight cells filled, X to play the last one at (2,2), which completes
    the main diagonal. *)
Definition lastMoveState : GameOver.GameState :=
  {| GameOver.board := boardOf [[Some X; Some O; Some X];
                                [Some O; Some X; Some O];
                                [Some O; Some X; None]];
     GameOver.currentTurn := X;
     GameOver.moveInProgress := false;
     GameOver.status := GameOver.ACTIVE;
     GameOver.stateWinningLine := None |}.

(** The full board without any line of three. *)
Definition drawnBoard : GameOver.Board :=
  boardOf [[Some X; Some O; Some X];
           [Some O; Some X; Some O];
           [Some O; Some X; Some O]].

(** X has just completed the top row. *)
Definition topRowBoard : GameOver.Board :=
  boardOf [[Some X; Some X; Some X];
           [Some O; Some O; None];
           [None; None; None]].

(** A game that O has won on the middle column. *)
Definition wonState : GameOver.GameState :=
  {| GameOver.board := boardOf [[Some X; Some O; Some X];
                                [None; Some O; Some X];
                                [None; Some O; None]];
     GameOver.currentTurn := O;
     GameOver.moveInProgress := false;
     GameOver.status := GameOver.O_WON;
     GameOver.stateWinningLine := Some [mkPos 0 1; mkPos 1 1; mkPos 2 1] |}.

End Scenarios.

(** ** Pointer input and runs of moves *)

Module Play.

(** [CELL_SIZE] (constants/render-config.ts). *)
Definition CELL_SIZE : Z := 150.

(** [getCellFromCoordinates] (input/click-handler.ts), for whole-pixel
    coordinates and a whole cell size.  [Math.floor(x / cellSize)] is then
    the floor division of [Z]; with [cellSize] zero the quotient is infinite
    or NaN and fails the range test. *)
Definition getCellFromCoordinates (x y cellSize gridSize : Z) : option CellPosition :=
  if cellSize =? 0 then None
  else
    let col := x / cellSize in
    let row := y / cellSize in
    if (row >=? 0) && (row <? gridSize) && (col >=? 0) && (col <? gridSize)
    then Some (mkPos row col)
    else None.

(** [handlePointerDown] of [setupClickHandler]: the state the handler holds
    after a pointer event at the canvas position [(x, y)].  When
    [processMove] returns the state it was given, the handler keeps it. *)
Definition handlePointerDown
    (currentState : Current.GameState) (canvasPos : Z * Z) : Current.GameState :=
  match getCellFromCoordinates (fst canvasPos) (snd canvasPos) CELL_SIZE GRID_SIZE with
  | Some cellPos => Current.processMove currentState cellPos
  | None => currentState
  end.


(** The positions of the 3x3 grid, row by row. *)
Definition gridPositions : list CellPosition :=
  [mkPos 0 0; mkPos 0 1; mkPos 0 2;
   mkPos 1 0; mkPos 1 1; mkPos 1 2;
   mkPos 2 0; mkPos 2 1; mkPos 2 2].




End Play.

(** ** Further boards and states *)

Module MoreScenarios.
Import Spec.

(** The board of the validation test with a size and no cells. *)
Definition cellLessState : Current.GameState :=
  {| Current.board := {| Current.cells := []; Current.size := 3 |};
     Current.currentTurn := X;
     Current.moveInProgress := false |}.

(** The shipped engine after X has played the first cell. *)
Definition openedState : Current.GameState :=
  Current.processMove Current.createInitialGameState (mkPos 0 0).

(** X is about to complete the top row at (0,2) on a board far from full. *)
Definition topRowState : GameOver.GameState :=
  {| GameOver.board := boardOf [[Some X; Some X; None];
                                [Some O; Some O; None];
                                [None; None; None]];
     GameOver.currentTurn := X;
     GameOver.moveInProgress := false;
     GameOver.status := GameOver.ACTIVE;
     GameOver.stateWinningLine := None |}.

(** Eight cells filled, X to play the last one at (2,2) without any line. *)
Definition lastCellState : GameOver.GameState :=
  {| GameOver.board := boardOf [[Some X; Some O; Some X];
                                [Some X; Some O; Some O];
                                [Some O; Some X; None]];
     GameOver.currentTurn := X;
     GameOver.moveInProgress := false;
     GameOver.status := GameOver.ACTIVE;
     GameOver.stateWinningLine := None |}.


End MoreScenarios.

(** * Properties of the engine as shipped *)

Section CurrentEngine.
Import Current.

Lemma placeAt_position (pos : CellPosition) (symbol : PlayerSymbol) (cell : Cell) :
  position (placeAt pos symbol cell) = position cell.
Proof.
  unfold placeAt. destruct (samePosition (position cell) pos); reflexivity.
Qed.

Lemma placeAt_hit (pos : CellPosition) (symbol : PlayerSymbol) (cell : Cell) :
  samePosition (position cell) pos = true ->
  value (placeAt pos symbol cell) = Some symbol.
Proof.
  intros Hsame. unfold placeAt. rewrite Hsame. reflexivity.
Qed.

Lemma placeAt_miss (pos : CellPosition) (symbol : PlayerSymbol) (cell : Cell) :
  samePosition (position cell) pos = false ->
  placeAt pos symbol cell = cell.
Proof.
  intros Hsame. unfold placeAt. rewrite Hsame. reflexivity.
Qed.

Lemma samePosition_eq (a b : CellPosition) :
  samePosition a b = true <-> a = b.
Proof.
  destruct a as [ra ca], b as [rb cb]. unfold samePosition. simpl.
  rewrite andb_true_iff, !Z.eqb_eq. split.
  - intros [-> ->]. reflexivity.
  - intros Heq. injection Heq as -> ->. split; reflexivity.
Qed.

(** C8. A move that [validateMove] rejects, whatever the reason, leaves the
    state untouched: [processMove] returns the very state it was given, so
    its board, turn and lock are those of the input. *)
Theorem processMove_rejected_unchanged
    (state : GameState) (pos : CellPosition) (reason : MoveFailureReason) :
  validateMove state pos = Failure reason ->
  processMove state pos = state.
Proof.
  intros Hrejected. unfold processMove. rewrite Hrejected. reflexivity.
Qed.

(** C9. Frame property of [updateBoardWithMove]: the size field and the
    number of cells are kept; cell by cell, the position is kept, a cell at
    the target position holds the symbol, and a cell at any other position
    is the input cell. *)
Theorem updateBoardWithMove_frame
    (b : Board) (pos : CellPosition) (symbol : PlayerSymbol) :
  size (updateBoardWithMove b pos symbol) = size b
  /\ length (cells (updateBoardWithMove b pos symbol)) = length (cells b)
  /\ forall (i : nat) (cell : Cell),
       nth_error (cells b) i = Some cell ->
       exists cell',
         nth_error (cells (updateBoardWithMove b pos symbol)) i = Some cell'
         /\ position cell' = position cell
         /\ (position cell = pos -> value cell' = Some symbol)
         /\ (position cell <> pos -> cell' = cell).
Proof.
  unfold updateBoardWithMove; simpl.
  split; [reflexivity|]. split; [apply length_map|].
  intros i cell Hcell. exists (placeAt pos symbol cell).
  split; [apply map_nth_error; exact Hcell|].
  split; [apply placeAt_position|]. split.
  - intros Heq. apply placeAt_hit. apply samePosition_eq. exact Heq.
  - intros Hneq. apply placeAt_miss.
    destruct (samePosition (position cell) pos) eqn:Hsame; [|reflexivity].
    apply samePosition_eq in Hsame. contradiction.
Qed.

(** C10. ['board-full'] is never produced: whatever the state and the
    position, a failure of [validateMove] carries ['move-in-progress'],
    ['invalid-position'] or ['cell-occupied']. *)
Theorem validateMove_board_full_dead (state : GameState) (pos : CellPosition) :
  validateMove state pos <> Failure board_full
  /\ match validateMove state pos with
     | Success => True
     | Failure reason =>
         reason = move_in_progress
         \/ reason = invalid_position
         \/ reason = cell_occupied
     end.
Proof.
  unfold validateMove.
  destruct (moveInProgress state); [split; [discriminate|auto]|].
  destruct ((row pos <? 0) || (row pos >=? size (board state))
            || (col pos <? 0) || (col pos >=? size (board state)));
    [split; [discriminate|auto]|].
  destruct (find _ _) as [cell|]; [|split; [discriminate|exact I]].
  destruct (value cell); split; try discriminate; auto.
Qed.

End CurrentEngine.

(** * Properties of the game-over detection feature *)

Section BoardAccess.
Import GameOver Spec.

Lemma replaceNth_length {A : Type} (xs : list A) (n : nat) (a : A) :
  length (replaceNth xs n a) = length xs.
Proof.
  revert n. induction xs as [|x rest IH]; intros [|n]; simpl; auto.
Qed.

Lemma replaceNth_same {A : Type} (xs : list A) (n : nat) (a : A) :
  (n < length xs)%nat -> nth_error (replaceNth xs n a) n = Some a.
Proof.
  revert n. induction xs as [|x rest IH]; intros [|n] Hlt; simpl in *;
    try lia; auto.
  apply IH. lia.
Qed.

Lemma replaceNth_other {A : Type} (xs : list A) (n m : nat) (a : A) :
  n <> m -> nth_error (replaceNth xs n a) m = nth_error xs m.
Proof.
  revert n m. induction xs as [|x rest IH]; intros [|n] [|m] Hneq; simpl;
    try reflexivity; try congruence.
  apply IH. congruence.
Qed.

Lemma znth_nonneg {A : Type} (xs : list A) (i : Z) :
  0 <= i -> znth xs i = nth_error xs (Z.to_nat i).
Proof.
  intros Hi. unfold znth. destruct (Z.ltb_spec i 0); [lia|reflexivity].
Qed.

Lemma znth_neg {A : Type} (xs : list A) (i : Z) :
  i < 0 -> znth xs i = None.
Proof.
  intros Hi. unfold znth. destruct (Z.ltb_spec i 0); [reflexivity|lia].
Qed.

(** Writing a cell does not disturb any other position. *)
Lemma getCell_writeCell_other (b : Board) (r c r' c' : Z) (v : GamePieceValue) :
  (r', c') <> (r, c) ->
  getCell (writeCell b r c v) r' c' = getCell b r' c'.
Proof.
  intros Hneq. unfold writeCell.
  destruct (Z.ltb_spec r 0) as [Hr|Hr]; simpl; [reflexivity|].
  destruct (Z.ltb_spec c 0) as [Hc|Hc]; simpl; [reflexivity|].
  destruct (nth_error b (Z.to_nat r)) as [cellsOfRow|] eqn:Hrow; [|reflexivity].
  unfold getCell.
  destruct (Z.ltb_spec r' 0) as [Hr'|Hr'].
  { rewrite !znth_neg by assumption. reflexivity. }
  rewrite !(znth_nonneg _ r') by assumption.
  destruct (Z.eq_dec r' r) as [->|Hrr].
  - rewrite replaceNth_same by (apply nth_error_Some; congruence).
    rewrite Hrow.
    destruct (Z.ltb_spec c' 0) as [Hc'|Hc'].
    { rewrite !znth_neg by assumption. reflexivity. }
    rewrite !(znth_nonneg _ c') by assumption.
    apply replaceNth_other. intros Heq.
    apply Hneq. f_equal. lia.
  - rewrite replaceNth_other by lia. reflexivity.
Qed.

(** Writing a cell that exists makes it hold the value written. *)
Lemma getCell_writeCell_same (b : Board) (r c : Z) (v : GamePieceValue) (old : Cell) :
  getCell b r c = Some old ->
  getCell (writeCell b r c v) r c = Some {| piece := v |}.
Proof.
  unfold getCell, writeCell, znth.
  destruct (Z.ltb_spec r 0) as [Hr|Hr]; [discriminate|].
  destruct (nth_error b (Z.to_nat r)) as [cellsOfRow|] eqn:Hrow; [|discriminate].
  destruct (Z.ltb_spec c 0) as [Hc|Hc]; [discriminate|]. simpl.
  intros Hold.
  rewrite replaceNth_same by (apply nth_error_Some; congruence).
  apply replaceNth_same. apply nth_error_Some. congruence.
Qed.

Lemma wfBoard_shape (b : Board) :
  wfBoard b ->
  exists c00 c01 c02 c10 c11 c12 c20 c21 c22,
    b = [[c00; c01; c02]; [c10; c11; c12]; [c20; c21; c22]].
Proof.
  intros [Hrows Hcols].
  destruct b as [|r0 [|r1 [|r2 [|]]]]; try discriminate.
  inversion Hcols as [|? ? H0 Hcols1]; subst.
  inversion Hcols1 as [|? ? H1 Hcols2]; subst.
  inversion Hcols2 as [|? ? H2 _]; subst.
  destruct r0 as [|c00 [|c01 [|c02 [|]]]]; try discriminate.
  destruct r1 as [|c10 [|c11 [|c12 [|]]]]; try discriminate.
  destruct r2 as [|c20 [|c21 [|c22 [|]]]]; try discriminate.
  repeat eexists.
Qed.

Lemma replaceNth_Forall {A : Type} (P : A -> Prop) (xs : list A) (n : nat) (a : A) :
  Forall P xs -> P a -> Forall P (replaceNth xs n a).
Proof.
  intros Hxs Ha. revert n.
  induction Hxs as [|x rest Hx Hrest IH]; intros [|n]; simpl; auto.
Qed.

Lemma writeCell_wfBoard (b : Board) (r c : Z) (v : GamePieceValue) :
  wfBoard b -> wfBoard (writeCell b r c v).
Proof.
  intros [Hrows Hcols]. unfold writeCell.
  destruct ((r <? 0) || (c <? 0)); [split; assumption|].
  destruct (nth_error b (Z.to_nat r)) as [cellsOfRow|] eqn:Hrow;
    [|split; assumption].
  split.
  - rewrite replaceNth_length. exact Hrows.
  - apply replaceNth_Forall; [exact Hcols|].
    rewrite replaceNth_length.
    rewrite Forall_forall in Hcols. apply Hcols.
    eapply nth_error_In. exact Hrow.
Qed.

Lemma inBounds_cases (pos : CellPosition) :
  inBounds pos ->
  In pos [mkPos 0 0; mkPos 0 1; mkPos 0 2;
          mkPos 1 0; mkPos 1 1; mkPos 1 2;
          mkPos 2 0; mkPos 2 1; mkPos 2 2].
Proof.
  destruct pos as [r c]. unfold inBounds. simpl. intros [Hr Hc].
  assert (r = 0 \/ r = 1 \/ r = 2) as [-> | [-> | ->]] by lia;
    assert (c = 0 \/ c = 1 \/ c = 2) as [-> | [-> | ->]] by lia;
    auto 10.
Qed.

Lemma wfBoard_getCell (b : Board) (pos : CellPosition) :
  wfBoard b -> inBounds pos ->
  exists cell, getCell b (row pos) (col pos) = Some cell.
Proof.
  intros Hwf Hpos.
  destruct (wfBoard_shape b Hwf)
    as (c00 & c01 & c02 & c10 & c11 & c12 & c20 & c21 & c22 & ->).
  apply inBounds_cases in Hpos. simpl in Hpos.
  repeat (destruct Hpos as [<- | Hpos]; [eexists; reflexivity|]).
  contradiction.
Qed.

Lemma pattern_inBounds (pattern : list CellPosition) (pos : CellPosition) :
  In pattern WIN_PATTERNS -> In pos pattern -> inBounds pos.
Proof.
  intros HP Hpos. simpl in HP.
  repeat (destruct HP as [<- | HP];
          [simpl in Hpos;
           repeat (destruct Hpos as [<- | Hpos];
                   [unfold inBounds; simpl; lia|]);
           contradiction|]).
  contradiction.
Qed.

End BoardAccess.

Section Detector.
Import GameOver Spec.

Lemma PlayerSymbol_eqb_eq (a b : PlayerSymbol) :
  PlayerSymbol_eqb a b = true <-> a = b.
Proof.
  destruct a, b; simpl; split; intros H; congruence.
Qed.

Lemma piece_is_true (v : GamePieceValue) (s : PlayerSymbol) :
  piece_is v s = true <-> v = Some s.
Proof.
  destruct v as [t|]; simpl.
  - rewrite PlayerSymbol_eqb_eq. split; congruence.
  - split; discriminate.
Qed.

(** On cells that exist, [isWinningLine] returns whether the player holds
    the whole pattern. *)
Lemma isWinningLine_heldBy (b : Board) (pattern : list CellPosition) (s : PlayerSymbol) :
  (forall pos, In pos pattern -> exists cell, getCell b (row pos) (col pos) = Some cell) ->
  isWinningLine b pattern s = Ret (heldBy b pattern s).
Proof.
  induction pattern as [|pos rest IH]; intros Hcells; simpl; [reflexivity|].
  destruct (Hcells pos (or_introl eq_refl)) as [cell Hcell].
  unfold pieceAt at 1. rewrite Hcell.
  destruct (piece_is (piece cell) s); simpl; [|reflexivity].
  apply IH. intros pos' Hin. apply Hcells. right. exact Hin.
Qed.

Lemma znth_WIN_PATTERNS_In (i : Z) (pattern : list CellPosition) :
  znth WIN_PATTERNS i = Some pattern -> In pattern WIN_PATTERNS /\ 0 <= i <= 7.
Proof.
  unfold znth. destruct (Z.ltb_spec i 0) as [Hi|Hi]; [discriminate|].
  intros Hnth. split; [eapply nth_error_In; exact Hnth|].
  assert (Z.to_nat i < length WIN_PATTERNS)%nat as Hlt
      by (apply nth_error_Some; congruence).
  simpl in Hlt. lia.
Qed.

Lemma In_WIN_PATTERNS_znth (pattern : list CellPosition) :
  In pattern WIN_PATTERNS ->
  exists i, 0 <= i <= 7 /\ znth WIN_PATTERNS i = Some pattern.
Proof.
  intros HP. simpl in HP.
  destruct HP as [<- | HP]; [exists 0; split; [lia|reflexivity]|].
  destruct HP as [<- | HP]; [exists 1; split; [lia|reflexivity]|].
  destruct HP as [<- | HP]; [exists 2; split; [lia|reflexivity]|].
  destruct HP as [<- | HP]; [exists 3; split; [lia|reflexivity]|].
  destruct HP as [<- | HP]; [exists 4; split; [lia|reflexivity]|].
  destruct HP as [<- | HP]; [exists 5; split; [lia|reflexivity]|].
  destruct HP as [<- | HP]; [exists 6; split; [lia|reflexivity]|].
  destruct HP as [<- | HP]; [exists 7; split; [lia|reflexivity]|].
  contradiction.
Qed.

(** On a well-formed board the loop never throws: it is [firstHeld]. *)
Lemma checkWinLoop_firstHeld (b : Board) (s : PlayerSymbol) (indices : list Z) :
  wfBoard b ->
  Forall (fun i => 0 <= i <= 7) indices ->
  checkWinLoop b s indices = Ret (firstHeld b s indices).
Proof.
  intros Hwf Hidx.
  induction Hidx as [|i rest Hi Hrest IH]; simpl; [reflexivity|].
  destruct (znth WIN_PATTERNS i) as [pattern|] eqn:Hnth.
  - rewrite isWinningLine_heldBy.
    + simpl. destruct (heldBy b pattern s); [reflexivity|exact IH].
    + intros pos Hin. apply wfBoard_getCell; [exact Hwf|].
      apply (pattern_inBounds pattern); [|exact Hin].
      apply (znth_WIN_PATTERNS_In i). exact Hnth.
  - exfalso. unfold znth in Hnth.
    destruct (Z.ltb_spec i 0); [lia|].
    apply nth_error_None in Hnth. simpl in Hnth. lia.
Qed.

Lemma firstHeld_winner (b : Board) (s : PlayerSymbol) (indices : list Z) (w : WinResult) :
  firstHeld b s indices = Some w ->
  winner w = s
  /\ exists i,
       In i indices
       /\ znth WIN_PATTERNS i = Some (winningLine w)
       /\ heldBy b (winningLine w) s = true.
Proof.
  induction indices as [|i rest IH]; simpl; [discriminate|].
  destruct (znth WIN_PATTERNS i) as [pattern|] eqn:Hnth; [|discriminate].
  destruct (heldBy b pattern s) eqn:Hheld.
  - intros [= <-]. simpl. split; [reflexivity|].
    exists i. auto.
  - intros Hrest. destruct (IH Hrest) as [Hw (j & Hj & Hrestj)].
    split; [exact Hw|]. exists j. split; [right; exact Hj|exact Hrestj].
Qed.

Lemma firstHeld_found (b : Board) (s : PlayerSymbol) (indices : list Z)
    (i : Z) (pattern : list CellPosition) :
  Forall (fun j => 0 <= j <= 7) indices ->
  In i indices ->
  znth WIN_PATTERNS i = Some pattern ->
  heldBy b pattern s = true ->
  exists w, firstHeld b s indices = Some w.
Proof.
  intros Hidx Hin Hnth Hheld.
  induction Hidx as [|j rest Hj Hrest IH]; simpl in *; [contradiction|].
  destruct (znth WIN_PATTERNS j) as [other|] eqn:Hother.
  - destruct (heldBy b other s) eqn:Hheldother; [eexists; reflexivity|].
    destruct Hin as [-> | Hin]; [congruence|].
    apply IH. exact Hin.
  - exfalso. unfold znth in Hother.
    destruct (Z.ltb_spec j 0); [lia|].
    apply nth_error_None in Hother. simpl in Hother. lia.
Qed.

Lemma firstHeld_none (b : Board) (s : PlayerSymbol) (indices : list Z)
    (i : Z) (pattern : list CellPosition) :
  firstHeld b s indices = None ->
  Forall (fun j => 0 <= j <= 7) indices ->
  In i indices ->
  znth WIN_PATTERNS i = Some pattern ->
  heldBy b pattern s = false.
Proof.
  intros Hnone Hidx Hin Hnth.
  destruct (heldBy b pattern s) eqn:Hheld; [|reflexivity].
  destruct (firstHeld_found b s indices i pattern Hidx Hin Hnth Hheld) as [w Hw].
  congruence.
Qed.

Lemma relevant_indices_range (pos : CellPosition) :
  inBounds pos ->
  Forall (fun i => 0 <= i <= 7) (getRelevantPatternIndices pos).
Proof.
  intros Hpos. apply inBounds_cases in Hpos. simpl in Hpos.
  repeat (destruct Hpos as [<- | Hpos];
          [cbv [getRelevantPatternIndices row col]; simpl;
           repeat constructor; lia|]).
  contradiction.
Qed.

(** The indices selected for a position are exactly those of the patterns
    that pass through it. *)
Lemma relevant_iff_through (pos : CellPosition) (i : Z) (pattern : list CellPosition) :
  inBounds pos ->
  znth WIN_PATTERNS i = Some pattern ->
  (In i (getRelevantPatternIndices pos) <-> In pos pattern).
Proof.
  intros Hpos Hnth.
  destruct (znth_WIN_PATTERNS_In i pattern Hnth) as [_ Hi].
  assert (i = 0 \/ i = 1 \/ i = 2 \/ i = 3 \/ i = 4 \/ i = 5 \/ i = 6 \/ i = 7)
    as Hcases by lia.
  apply inBounds_cases in Hpos. simpl in Hpos.
  repeat (destruct Hpos as [<- | Hpos];
          [repeat (destruct Hcases as [-> | Hcases]);
           try subst i;
           cbv in Hnth; injection Hnth as <-;
           cbv [getRelevantPatternIndices row col]; simpl;
           (split; intros H;
            [ repeat (destruct H as [H|H]; try discriminate H; try lia);
              auto 6
            | repeat (destruct H as [H|H]; try discriminate H);
              auto 6; try contradiction ])
          |]).
  contradiction.
Qed.

End Detector.

Section PatternSelection.
Import GameOver Spec.

(** The grid is its 4 corners, its center and its 4 edges. *)
Lemma grid_partition (pos : CellPosition) :
  inBounds pos <-> In pos corners \/ pos = center \/ In pos edges.
Proof.
  split.
  - intros Hpos. apply inBounds_cases in Hpos.
    unfold corners, center, edges. simpl in *. intuition auto.
  - unfold corners, center, edges, inBounds. simpl.
    intros [Hc | [-> | He]]; [| simpl; lia |].
    + destruct Hc as [<- | [<- | [<- | [<- | []]]]]; simpl; lia.
    + destruct He as [<- | [<- | [<- | [<- | []]]]]; simpl; lia.
Qed.

(** C7. For a position of the grid, [getRelevantPatternIndices] returns
    distinct indices of [0..7], each the index of a pattern that contains
    the position: 3 of them for a corner, [1; 4; 6; 7] for the center and
    2 for an edge. *)
Theorem getRelevantPatternIndices_counts (pos : CellPosition) :
  inBounds pos ->
  Forall (fun i => 0 <= i <= 7
                   /\ exists pattern,
                        znth WIN_PATTERNS i = Some pattern /\ In pos pattern)
         (getRelevantPatternIndices pos)
  /\ NoDup (getRelevantPatternIndices pos)
  /\ (In pos corners -> length (getRelevantPatternIndices pos) = 3%nat)
  /\ (pos = center ->
      getRelevantPatternIndices pos = [1; 4; 6; 7]
      /\ length (getRelevantPatternIndices pos) = 4%nat)
  /\ (In pos edges -> length (getRelevantPatternIndices pos) = 2%nat).
Proof.
  intros Hpos. split; [|split].
  - apply Forall_forall. intros i Hi.
    pose proof (relevant_indices_range pos Hpos) as Hrange.
    rewrite Forall_forall in Hrange. specialize (Hrange i Hi).
    split; [exact Hrange|].
    destruct (znth WIN_PATTERNS i) as [pattern|] eqn:Hnth.
    + exists pattern. split; [reflexivity|].
      apply (relevant_iff_through pos i pattern Hpos Hnth). exact Hi.
    + exfalso. unfold znth in Hnth.
      destruct (Z.ltb_spec i 0); [lia|].
      apply nth_error_None in Hnth. simpl in Hnth. lia.
  - apply inBounds_cases in Hpos. simpl in Hpos.
    repeat (destruct Hpos as [<- | Hpos];
            [cbv [getRelevantPatternIndices row col]; simpl;
             repeat (constructor; [simpl; intuition lia|]); constructor|]).
    contradiction.
  - split; [|split].
    + unfold corners. simpl.
      intros [<- | [<- | [<- | [<- | []]]]]; reflexivity.
    + intros ->. split; reflexivity.
    + unfold edges. simpl.
      intros [<- | [<- | [<- | [<- | []]]]]; reflexivity.
Qed.

End PatternSelection.

Section WinCheck.
Import GameOver Spec.

Lemma heldBy_pieceAt (b : Board) (pattern : list CellPosition)
    (s : PlayerSymbol) (pos : CellPosition) :
  heldBy b pattern s = true -> In pos pattern -> pieceAt b pos = Some s.
Proof.
  intros Hheld Hin. unfold heldBy in Hheld.
  rewrite forallb_forall in Hheld.
  apply piece_is_true. apply Hheld. exact Hin.
Qed.

Lemma pieceAt_getCell (b : Board) (pos : CellPosition) (s : PlayerSymbol) :
  pieceAt b pos = Some s ->
  exists cell, getCell b (row pos) (col pos) = Some cell /\ piece cell = Some s.
Proof.
  unfold pieceAt.
  destruct (getCell b (row pos) (col pos)) as [cell|]; [|discriminate].
  intros Hpiece. exists cell. split; [reflexivity|exact Hpiece].
Qed.

Lemma sorted_before (pre post : list Z) (i j : Z) :
  StronglySorted Z.lt (pre ++ i :: post) ->
  In j (pre ++ i :: post) -> j < i -> In j pre.
Proof.
  induction pre as [|a pre IH]; simpl; intros Hsorted Hin Hlt.
  - inversion Hsorted as [|? ? _ Hall]; subst.
    destruct Hin as [-> | Hin]; [lia|].
    rewrite Forall_forall in Hall. specialize (Hall j Hin). lia.
  - inversion Hsorted as [|? ? Hrest _]; subst.
    destruct Hin as [-> | Hin]; [left; reflexivity|].
    right. apply IH; assumption.
Qed.

Lemma relevant_indices_sorted (pos : CellPosition) :
  inBounds pos -> StronglySorted Z.lt (getRelevantPatternIndices pos).
Proof.
  intros Hpos. apply inBounds_cases in Hpos. simpl in Hpos.
  repeat (destruct Hpos as [<- | Hpos];
          [cbv [getRelevantPatternIndices row col]; simpl;
           repeat (constructor; [|repeat constructor; lia]); constructor|]).
  contradiction.
Qed.

(** What precedes the pattern found is not held. *)
Lemma firstHeld_first (b : Board) (s : PlayerSymbol) (indices : list Z) (w : WinResult) :
  firstHeld b s indices = Some w ->
  exists pre i post,
    indices = pre ++ i :: post
    /\ znth WIN_PATTERNS i = Some (winningLine w)
    /\ forall j other,
         In j pre -> znth WIN_PATTERNS j = Some other -> heldBy b other s = false.
Proof.
  induction indices as [|i rest IH]; simpl; [discriminate|].
  destruct (znth WIN_PATTERNS i) as [pattern|] eqn:Hnth; [|discriminate].
  destruct (heldBy b pattern s) eqn:Hheld.
  - intros [= <-]. exists [], i, rest. simpl.
    split; [reflexivity|]. split; [exact Hnth|]. intros j other [].
  - intros Hrest.
    destruct (IH Hrest) as (pre & k & post & -> & Hk & Hpre).
    exists (i :: pre), k, post. simpl.
    split; [reflexivity|]. split; [exact Hk|].
    intros j other [<- | Hj] Hother.
    + congruence.
    + eapply Hpre; eassumption.
Qed.

(** The winning line is not always the pattern one asks about: with the top
    row and the left column both held by X and the last move at their
    common corner, [checkWin] reports the row, not the column. *)
Lemma checkWin_given_pattern_refuted :
  ~ (forall (b : Board) (pattern : list CellPosition)
            (s : PlayerSymbol) (lastMove : CellPosition),
        wfBoard b ->
        In pattern WIN_PATTERNS ->
        heldBy b pattern s = true ->
        In lastMove pattern ->
        exists w,
          checkWin b lastMove = Ret (Some w)
          /\ winner w = s
          /\ sameLine (winningLine w) pattern).
Proof.
  intros Hstated.
  specialize
    (Hstated
       Scenarios.crossBoard [mkPos 0 0; mkPos 1 0; mkPos 2 0] X (mkPos 0 0)).
  destruct Hstated as (w & Hw & _ & Hline).
  - split; [reflexivity|]. repeat constructor.
  - simpl. auto 10.
  - reflexivity.
  - simpl. auto.
  - cbv in Hw. injection Hw as <-. simpl in Hline.
    destruct (Hline (mkPos 0 1)) as [Hin _].
    destruct Hin as [H | [H | [H | []]]]; try discriminate H.
    simpl. auto.
Qed.

(** When the player holds a pattern through the last move, [checkWin]
    returns what [firstHeld] finds among the relevant patterns, and that is
    a win. *)
Lemma checkWin_held_found
    (b : Board) (pattern : list CellPosition)
    (s : PlayerSymbol) (lastMove : CellPosition) :
  wfBoard b ->
  In pattern WIN_PATTERNS ->
  heldBy b pattern s = true ->
  In lastMove pattern ->
  exists w,
    firstHeld b s (getRelevantPatternIndices lastMove) = Some w
    /\ checkWin b lastMove = Ret (Some w).
Proof.
  intros Hwf HP Hheld Hin.
  pose proof (pattern_inBounds pattern lastMove HP Hin) as Hpos.
  destruct (pieceAt_getCell b lastMove s (heldBy_pieceAt b pattern s lastMove Hheld Hin))
    as (cell & Hcell & Hpiece).
  pose proof (relevant_indices_range lastMove Hpos) as Hrange.
  destruct (In_WIN_PATTERNS_znth pattern HP) as (k & Hk & Hnth).
  assert (In k (getRelevantPatternIndices lastMove)) as Hrel
      by (apply (relevant_iff_through lastMove k pattern Hpos Hnth); exact Hin).
  destruct (firstHeld_found b s _ k pattern Hrange Hrel Hnth Hheld) as [w Hw].
  exists w. split; [exact Hw|].
  unfold checkWin. rewrite Hcell, Hpiece.
  rewrite (checkWinLoop_firstHeld b s _ Hwf Hrange). rewrite Hw. reflexivity.
Qed.

(** C2, amended. If the player S holds a pattern P through the last move,
    [checkWin] returns winner S together with the first pattern, in index
    order, through the last move that S holds; that line is P as soon as P
    is the only such pattern. *)
Theorem checkWin_first_held_pattern
    (b : Board) (pattern : list CellPosition)
    (s : PlayerSymbol) (lastMove : CellPosition) :
  wfBoard b ->
  In pattern WIN_PATTERNS ->
  heldBy b pattern s = true ->
  In lastMove pattern ->
  exists i line,
    checkWin b lastMove = Ret (Some {| winner := s; winningLine := line |})
    /\ znth WIN_PATTERNS i = Some line
    /\ In lastMove line
    /\ heldBy b line s = true
    /\ (forall j other,
          j < i -> znth WIN_PATTERNS j = Some other -> In lastMove other ->
          heldBy b other s = false)
    /\ ((forall other,
           In other WIN_PATTERNS -> In lastMove other ->
           heldBy b other s = true -> other = pattern) ->
        line = pattern /\ sameLine line pattern).
Proof.
  intros Hwf HP Hheld Hin.
  pose proof (pattern_inBounds pattern lastMove HP Hin) as Hpos.
  destruct (checkWin_held_found b pattern s lastMove Hwf HP Hheld Hin)
    as (w & Hw & Hwin).
  destruct (firstHeld_winner b s _ w Hw) as (Hwinner & i & Hi & Hline & Hlineheld).
  destruct (firstHeld_first b s _ w Hw) as (pre & i' & post & Hsplit & Hi' & Hpre).
  destruct w as [sw line]. simpl in *. subst sw.
  assert (In lastMove line) as Hthrough
      by (apply (relevant_iff_through lastMove i line Hpos Hline); exact Hi).
  exists i', line.
  split; [|split; [|split; [|split; [|split]]]].
  - exact Hwin.
  - exact Hi'.
  - exact Hthrough.
  - exact Hlineheld.
  - intros j other Hlt Hother Hinother.
    apply (Hpre j other); [|exact Hother].
    assert (In j (getRelevantPatternIndices lastMove)) as Hj
        by (apply (relevant_iff_through lastMove j other Hpos Hother); exact Hinother).
    pose proof (relevant_indices_sorted lastMove Hpos) as Hsorted.
    rewrite Hsplit in Hsorted, Hj.
    apply (sorted_before pre post i' j); assumption.
  - intros Honly.
    assert (line = pattern) as ->.
    { apply Honly; [|exact Hthrough|exact Hlineheld].
      apply (znth_WIN_PATTERNS_In i). exact Hline. }
    split; [reflexivity|]. intros pos. reflexivity.
Qed.

End WinCheck.

Section Completeness.
Import GameOver Spec.

Lemma CellPosition_eq_dec (a b : CellPosition) : {a = b} + {a <> b}.
Proof.
  decide equality; apply Z.eq_dec.
Qed.

Lemma wfBoard_getCell_inBounds (b : Board) (pos : CellPosition) (cell : Cell) :
  wfBoard b -> getCell b (row pos) (col pos) = Some cell -> inBounds pos.
Proof.
  intros [Hrows Hcols]. unfold getCell, znth, inBounds.
  destruct (Z.ltb_spec (row pos) 0) as [Hr|Hr]; [discriminate|].
  destruct (nth_error b (Z.to_nat (row pos))) as [cellsOfRow|] eqn:Hrow;
    [|discriminate].
  destruct (Z.ltb_spec (col pos) 0) as [Hc|Hc]; [discriminate|].
  intros Hcell.
  assert (Z.to_nat (row pos) < length b)%nat
    by (apply nth_error_Some; congruence).
  assert (Z.to_nat (col pos) < length cellsOfRow)%nat
    by (apply nth_error_Some; congruence).
  rewrite Forall_forall in Hcols.
  rewrite (Hcols cellsOfRow) in * by (eapply nth_error_In; exact Hrow).
  lia.
Qed.

Lemma pieceAt_writeCell_other (b : Board) (pos pos' : CellPosition) (v : GamePieceValue) :
  pos' <> pos ->
  pieceAt (writeCell b (row pos) (col pos) v) pos' = pieceAt b pos'.
Proof.
  intros Hneq. unfold pieceAt.
  rewrite getCell_writeCell_other; [reflexivity|].
  intros Heq. apply Hneq.
  destruct pos, pos'. simpl in Heq. congruence.
Qed.

(** A pattern that avoids the written position is held after the write
    exactly when it was held before. *)
Lemma heldBy_writeCell_other
    (b : Board) (pos : CellPosition) (v : GamePieceValue)
    (pattern : list CellPosition) (s : PlayerSymbol) :
  ~ In pos pattern ->
  heldBy (writeCell b (row pos) (col pos) v) pattern s = heldBy b pattern s.
Proof.
  intros Hout. unfold heldBy.
  induction pattern as [|pos' rest IH]; simpl; [reflexivity|].
  rewrite pieceAt_writeCell_other by (intros ->; apply Hout; left; reflexivity).
  rewrite IH; [reflexivity|].
  intros Hin. apply Hout. right. exact Hin.
Qed.

Lemma naiveScan_true (b : Board) :
  naiveScan b = true <->
  exists pattern s, In pattern WIN_PATTERNS /\ heldBy b pattern s = true.
Proof.
  unfold naiveScan. rewrite existsb_exists. split.
  - intros (pattern & HP & Hheld). apply orb_true_iff in Hheld.
    destruct Hheld as [Hheld|Hheld]; eauto.
  - intros (pattern & s & HP & Hheld). exists pattern. split; [exact HP|].
    destruct s; rewrite Hheld; auto using orb_true_r.
Qed.

(** C4. The reduced check agrees with the naive scan of all 8 patterns:
    when the cell at the position is non-empty and the board with that cell
    emptied has no pattern held by one symbol, [checkWin] returns, and it
    returns a win exactly when the naive scan finds one. *)
Theorem checkWin_complete (b : Board) (pos : CellPosition) :
  wfBoard b ->
  pieceAt b pos <> None ->
  naiveScan (emptied b pos) = false ->
  exists result,
    checkWin b pos = Ret result
    /\ (result <> None <-> naiveScan b = true).
Proof.
  intros Hwf Hpiece Hbefore.
  destruct (pieceAt b pos) as [player|] eqn:Hplayer; [clear Hpiece|congruence].
  destruct (pieceAt_getCell b pos player Hplayer) as (cell & Hcell & Hcellpiece).
  pose proof (wfBoard_getCell_inBounds b pos cell Hwf Hcell) as Hpos.
  pose proof (relevant_indices_range pos Hpos) as Hrange.
  exists (firstHeld b player (getRelevantPatternIndices pos)). split.
  - unfold checkWin. rewrite Hcell, Hcellpiece.
    apply checkWinLoop_firstHeld; assumption.
  - rewrite naiveScan_true. split.
    + destruct (firstHeld b player (getRelevantPatternIndices pos)) as [w|] eqn:Hw;
        [intros _|congruence].
      destruct (firstHeld_winner b player _ w Hw) as (_ & i & _ & Hline & Hheld).
      exists (winningLine w), player. split; [|exact Hheld].
      apply (znth_WIN_PATTERNS_In i). exact Hline.
    + intros (pattern & s & HP & Hheld).
      destruct (in_dec CellPosition_eq_dec pos pattern) as [Hin|Hout].
      * assert (s = player) as ->.
        { pose proof (heldBy_pieceAt b pattern s pos Hheld Hin). congruence. }
        destruct (In_WIN_PATTERNS_znth pattern HP) as (i & _ & Hnth).
        assert (In i (getRelevantPatternIndices pos)) as Hrel
          by (apply (relevant_iff_through pos i pattern Hpos Hnth); exact Hin).
        destruct (firstHeld_found b player _ i pattern Hrange Hrel Hnth Hheld)
          as [w Hw].
        rewrite Hw. discriminate.
      * exfalso.
        assert (naiveScan (emptied b pos) = true) as Hscan.
        { apply naiveScan_true. exists pattern, s. split; [exact HP|].
          unfold emptied. rewrite heldBy_writeCell_other; assumption. }
        congruence.
Qed.

End Completeness.

Section DrawCheck.
Import GameOver Spec.

(** On a well-formed board [checkDraw] never throws and answers whether all
    the cells are filled. *)
Lemma checkDraw_allFilled (b : Board) :
  wfBoard b -> checkDraw b = Ret (allFilled b).
Proof.
  intros Hwf.
  destruct (wfBoard_shape b Hwf)
    as (c00 & c01 & c02 & c10 & c11 & c12 & c20 & c21 & c22 & ->).
  destruct c00 as [[p00|]]; [|reflexivity].
  destruct c01 as [[p01|]]; [|reflexivity].
  destruct c02 as [[p02|]]; [|reflexivity].
  destruct c10 as [[p10|]]; [|reflexivity].
  destruct c11 as [[p11|]]; [|reflexivity].
  destruct c12 as [[p12|]]; [|reflexivity].
  destruct c20 as [[p20|]]; [|reflexivity].
  destruct c21 as [[p21|]]; [|reflexivity].
  destruct c22 as [[p22|]]; reflexivity.
Qed.

Lemma allFilled_pieceAt (b : Board) (pos : CellPosition) :
  wfBoard b -> allFilled b = true -> inBounds pos -> pieceAt b pos <> None.
Proof.
  intros Hwf Hfilled Hpos.
  destruct (wfBoard_getCell b pos Hwf Hpos) as [cell Hcell].
  unfold pieceAt. rewrite Hcell.
  unfold getCell, znth in Hcell.
  destruct (row pos <? 0); [discriminate|].
  destruct (nth_error b (Z.to_nat (row pos))) as [cellsOfRow|] eqn:Hrow;
    [|discriminate].
  destruct (col pos <? 0); [discriminate|].
  unfold allFilled in Hfilled. rewrite forallb_forall in Hfilled.
  specialize (Hfilled cellsOfRow (nth_error_In _ _ Hrow)).
  rewrite forallb_forall in Hfilled.
  specialize (Hfilled cell (nth_error_In _ _ Hcell)).
  destruct (piece cell); congruence.
Qed.

Lemma boardFull_allFilled (b : Board) :
  wfBoard b -> boardFull b -> allFilled b = true.
Proof.
  intros Hwf Hfull.
  destruct (wfBoard_shape b Hwf)
    as (c00 & c01 & c02 & c10 & c11 & c12 & c20 & c21 & c22 & ->).
  assert (forall r c, 0 <= r <= 2 -> 0 <= c <= 2 ->
                      pieceAt [[c00; c01; c02]; [c10; c11; c12]; [c20; c21; c22]]
                              (mkPos r c) <> None) as Hat
    by (intros r c Hr Hc; apply Hfull; split; assumption).
  pose proof (Hat 0 0 ltac:(lia) ltac:(lia)) as H00.
  pose proof (Hat 0 1 ltac:(lia) ltac:(lia)) as H01.
  pose proof (Hat 0 2 ltac:(lia) ltac:(lia)) as H02.
  pose proof (Hat 1 0 ltac:(lia) ltac:(lia)) as H10.
  pose proof (Hat 1 1 ltac:(lia) ltac:(lia)) as H11.
  pose proof (Hat 1 2 ltac:(lia) ltac:(lia)) as H12.
  pose proof (Hat 2 0 ltac:(lia) ltac:(lia)) as H20.
  pose proof (Hat 2 1 ltac:(lia) ltac:(lia)) as H21.
  pose proof (Hat 2 2 ltac:(lia) ltac:(lia)) as H22.
  clear Hat Hfull Hwf.
  cbv [pieceAt getCell znth row col] in *. simpl in *.
  destruct (piece c00), (piece c01), (piece c02),
           (piece c10), (piece c11), (piece c12),
           (piece c20), (piece c21), (piece c22); simpl; congruence.
Qed.

(** C5. [checkDraw] returns, and returns true exactly when each of the 9
    cells is non-empty; no pattern is consulted, so the answer is the same
    whether or not the board holds a win. *)
Theorem checkDraw_iff_full (b : Board) :
  wfBoard b ->
  exists full,
    checkDraw b = Ret full
    /\ (full = true <-> boardFull b).
Proof.
  intros Hwf. exists (allFilled b).
  split; [apply checkDraw_allFilled; exact Hwf|]. split.
  - intros Hfilled pos Hpos. apply allFilled_pieceAt; assumption.
  - apply boardFull_allFilled. exact Hwf.
Qed.

(** A full board on which X holds the main diagonal: [checkDraw] says
    true although the naive scan finds a win. *)
Example checkDraw_ignores_win :
  let b := boardOf [[Some X; Some O; Some X];
                    [Some O; Some X; Some O];
                    [Some O; Some X; Some X]] in
  checkDraw b = Ret true /\ naiveScan b = true.
Proof.
  split; reflexivity.
Qed.

End DrawCheck.

Section StateMachine.
Import GameOver Spec.

Lemma GameStatus_eqb_eq (a b : GameStatus) :
  GameStatus_eqb a b = true <-> a = b.
Proof.
  destruct a, b; simpl; split; intros H; congruence.
Qed.

(** What an accepted move tells about the state and the position. *)
Lemma validateMove_accepted (state : GameState) (pos : CellPosition) :
  validateMove state pos = Ret Success ->
  status state = ACTIVE
  /\ moveInProgress state = false
  /\ inBounds pos
  /\ exists cell,
       getCell (board state) (row pos) (col pos) = Some cell
       /\ piece cell = None.
Proof.
  unfold validateMove.
  destruct (GameStatus_eqb (status state) ACTIVE) eqn:Hstatus; simpl;
    [|discriminate].
  destruct (moveInProgress state); [discriminate|].
  destruct (isValidPosition pos GRID_SIZE) eqn:Hvalid; simpl; [|discriminate].
  destruct (getCell (board state) (row pos) (col pos)) as [cell|];
    [|discriminate].
  destruct (piece cell) eqn:Hpiece; [discriminate|].
  intros _. split; [apply GameStatus_eqb_eq; exact Hstatus|].
  split; [reflexivity|]. split.
  - unfold isValidPosition, GRID_SIZE in Hvalid.
    apply andb_prop in Hvalid as [Hvalid Hc2].
    apply andb_prop in Hvalid as [Hvalid Hc1].
    apply andb_prop in Hvalid as [Hr1 Hr2].
    unfold inBounds. lia.
  - exists cell. split; [reflexivity|exact Hpiece].
Qed.

(** A rejected move returns the state given, in the extended engine too. *)
Lemma processMove_rejected (state : GameState) (pos : CellPosition)
    (reason : MoveFailureReason) :
  validateMove state pos = Ret (Failure reason) ->
  processMove state pos = Ret state.
Proof.
  intros Hrejected. unfold processMove. rewrite Hrejected. reflexivity.
Qed.

(** C6. Once the status is not ACTIVE, [validateMove] rejects every position
    with the reason ['game-over'], a reason of its own: it is none of
    ['cell-occupied'], ['invalid-position'] and ['move-in-progress']. *)
Theorem validateMove_game_over (state : GameState) (pos : CellPosition) :
  status state <> ACTIVE ->
  validateMove state pos = Ret (Failure game_over)
  /\ game_over <> cell_occupied
  /\ game_over <> invalid_position
  /\ game_over <> move_in_progress.
Proof.
  intros Hterminal. unfold validateMove.
  destruct (GameStatus_eqb (status state) ACTIVE) eqn:Hstatus.
  - apply GameStatus_eqb_eq in Hstatus. contradiction.
  - simpl. repeat split; discriminate.
Qed.

(** In an active game the reason ['game-over'] is never given. *)
Lemma validateMove_active_not_game_over (state : GameState) (pos : CellPosition) :
  status state = ACTIVE ->
  validateMove state pos <> Ret (Failure game_over).
Proof.
  intros Hactive. unfold validateMove. rewrite Hactive. simpl.
  destruct (moveInProgress state); [discriminate|].
  destruct (negb (isValidPosition pos GRID_SIZE)); [discriminate|].
  destruct (getCell (board state) (row pos) (col pos)) as [cell|];
    [|discriminate].
  destruct (piece cell); discriminate.
Qed.

(** The extended validator does not produce ['board-full'] either. *)
Lemma validateMove_extended_no_board_full (state : GameState) (pos : CellPosition) :
  validateMove state pos <> Ret (Failure board_full).
Proof.
  unfold validateMove.
  destruct (negb (GameStatus_eqb (status state) ACTIVE)); [discriminate|].
  destruct (moveInProgress state); [discriminate|].
  destruct (negb (isValidPosition pos GRID_SIZE)); [discriminate|].
  destruct (getCell (board state) (row pos) (col pos)) as [cell|];
    [|discriminate].
  destruct (piece cell); discriminate.
Qed.

(** C3. The terminal statuses are absorbing: from a state whose status is
    X_WON, O_WON or DRAW, every [processMove] returns the state itself, and
    so does every run of moves, whatever the positions. *)
Theorem terminal_status_absorbing (state : GameState) (moves : list CellPosition) :
  status state <> ACTIVE ->
  (forall pos, processMove state pos = Ret state)
  /\ processMoves state moves = Ret state.
Proof.
  intros Hterminal.
  assert (forall pos, processMove state pos = Ret state) as Hstep.
  { intros pos. apply (processMove_rejected state pos game_over).
    apply validateMove_game_over. exact Hterminal. }
  split; [exact Hstep|].
  induction moves as [|pos rest IH]; simpl; [reflexivity|].
  rewrite Hstep. simpl. exact IH.
Qed.

(** An accepted move that leaves the mover holding a pattern through the
    position played ends the game with the mover's win. *)
Lemma processMove_win (state : GameState) (pos : CellPosition)
    (pattern : list CellPosition) :
  wfBoard (board state) ->
  validateMove state pos = Ret Success ->
  In pattern WIN_PATTERNS ->
  In pos pattern ->
  heldBy (setCellValue (board state) (row pos) (col pos) (currentTurn state))
         pattern (currentTurn state) = true ->
  exists line,
    processMove state pos =
    Ret {| board := setCellValue (board state) (row pos) (col pos) (currentTurn state);
           currentTurn := currentTurn state;
           moveInProgress := false;
           status := wonStatus (currentTurn state);
           stateWinningLine := Some line |}.
Proof.
  intros Hwf Haccepted HP Hin Hheld.
  assert (wfBoard (setCellValue (board state) (row pos) (col pos) (currentTurn state)))
    as Hwf' by (apply writeCell_wfBoard; exact Hwf).
  destruct (checkWin_held_found _ pattern (currentTurn state) pos
              Hwf' HP Hheld Hin) as (w & Hw & Hwin).
  destruct (firstHeld_winner _ _ _ w Hw) as (Hwinner & _).
  exists (winningLine w). unfold processMove. rewrite Haccepted. simpl.
  rewrite Hwin. simpl. rewrite Hwinner.
  destruct (currentTurn state); reflexivity.
Qed.

(** C1. In an ACTIVE game, an accepted move that completes a pattern for the
    mover and also fills the last empty cell yields the mover's won status,
    X_WON or O_WON, not DRAW, although [checkDraw] holds of the resulting
    board: the win is found first and ends the evaluation. *)
Theorem processMove_win_before_draw (state : GameState) (pos : CellPosition) :
  wfBoard (board state) ->
  status state = ACTIVE ->
  validateMove state pos = Ret Success ->
  (exists pattern,
     In pattern WIN_PATTERNS
     /\ heldBy (board state) pattern (currentTurn state) = false
     /\ heldBy (setCellValue (board state) (row pos) (col pos) (currentTurn state))
               pattern (currentTurn state) = true) ->
  boardFull (setCellValue (board state) (row pos) (col pos) (currentTurn state)) ->
  exists state',
    processMove state pos = Ret state'
    /\ status state' = wonStatus (currentTurn state)
    /\ status state' <> DRAW
    /\ stateWinningLine state' <> None
    /\ checkDraw (board state') = Ret true.
Proof.
  intros Hwf Hactive Haccepted (pattern & HP & Hbefore & Hafter) Hfull.
  assert (In pos pattern) as Hin.
  { destruct (in_dec CellPosition_eq_dec pos pattern) as [Hin|Hout]; [exact Hin|].
    unfold setCellValue in Hafter.
    rewrite heldBy_writeCell_other in Hafter by exact Hout. congruence. }
  destruct (processMove_win state pos pattern Hwf Haccepted HP Hin Hafter)
    as [line Hmove].
  eexists. split; [exact Hmove|]. simpl.
  split; [reflexivity|]. split; [destruct (currentTurn state); discriminate|].
  split; [discriminate|].
  rewrite checkDraw_allFilled by (apply writeCell_wfBoard; exact Hwf).
  f_equal. apply boardFull_allFilled; [|exact Hfull].
  apply writeCell_wfBoard. exact Hwf.
Qed.

End StateMachine.

(** * The statements at the scenarios *)

Section ScenarioRuns.
Import Spec Scenarios.

Lemma wfBoard_boardOf3 (p00 p01 p02 p10 p11 p12 p20 p21 p22 : GamePieceValue) :
  wfBoard (boardOf [[p00; p01; p02]; [p10; p11; p12]; [p20; p21; p22]]).
Proof.
  split; [reflexivity|]. repeat constructor.
Qed.

(** C8 at a locked state: the move is refused and the state comes back. *)
Lemma processMove_rejected_unchanged_witness :
  Current.validateMove lockedState (mkPos 0 0)
  = Current.Failure Current.move_in_progress
  /\ Current.processMove lockedState (mkPos 0 0) = lockedState.
Proof.
  split; [reflexivity|].
  apply (processMove_rejected_unchanged
           lockedState (mkPos 0 0) Current.move_in_progress).
  reflexivity.
Defined.

(** C9 at the first cell of the empty board, where X is placed, and at the
    second cell, which is kept. *)
Lemma updateBoardWithMove_frame_witness :
  Current.size openedBoard = 3
  /\ length (Current.cells openedBoard) = 9%nat
  /\ (exists cell',
        nth_error (Current.cells openedBoard) 0 = Some cell'
        /\ Current.position cell' = mkPos 0 0
        /\ Current.value cell' = Some X)
  /\ (exists cell',
        nth_error (Current.cells openedBoard) 1 = Some cell'
        /\ cell' = {| Current.value := None; Current.position := mkPos 0 1 |}).
Proof.
  destruct (updateBoardWithMove_frame
              (Current.createEmptyBoard GRID_SIZE) (mkPos 0 0) X)
    as (Hsize & Hlength & Hcells).
  split; [exact Hsize|]. split; [exact Hlength|]. split.
  - destruct (Hcells 0%nat
                {| Current.value := None; Current.position := mkPos 0 0 |}
                eq_refl) as (cell' & Hnth & Hposition & Hhit & _).
    exists cell'. split; [exact Hnth|]. split; [exact Hposition|].
    apply Hhit. reflexivity.
  - destruct (Hcells 1%nat
                {| Current.value := None; Current.position := mkPos 0 1 |}
                eq_refl) as (cell' & Hnth & _ & _ & Hmiss).
    exists cell'. split; [exact Hnth|].
    apply Hmiss. discriminate.
Defined.

(** C7 at the center and at a corner and an edge. *)
Lemma getRelevantPatternIndices_counts_witness :
  inBounds center
  /\ GameOver.getRelevantPatternIndices center = [1; 4; 6; 7]
  /\ length (GameOver.getRelevantPatternIndices (mkPos 0 2)) = 3%nat
  /\ length (GameOver.getRelevantPatternIndices (mkPos 2 1)) = 2%nat.
Proof.
  assert (inBounds center) as Hcenter by (unfold inBounds, center; simpl; lia).
  assert (inBounds (mkPos 0 2)) as Hcorner by (unfold inBounds; simpl; lia).
  assert (inBounds (mkPos 2 1)) as Hedge by (unfold inBounds; simpl; lia).
  split; [exact Hcenter|]. split; [|split].
  - apply (getRelevantPatternIndices_counts center Hcenter). reflexivity.
  - apply (getRelevantPatternIndices_counts (mkPos 0 2) Hcorner).
    unfold corners. simpl. auto.
  - apply (getRelevantPatternIndices_counts (mkPos 2 1) Hedge).
    unfold edges. simpl. auto.
Defined.

(** C2 as amended, at the board of the counterexample: asked about the left
    column, [checkWin] answers with a line of X through (0,0). *)
Lemma checkWin_first_held_pattern_witness :
  wfBoard crossBoard
  /\ heldBy crossBoard [mkPos 0 0; mkPos 1 0; mkPos 2 0] X = true
  /\ exists i line,
       GameOver.checkWin crossBoard (mkPos 0 0)
       = GameOver.Ret (Some {| GameOver.winner := X; GameOver.winningLine := line |})
       /\ znth GameOver.WIN_PATTERNS i = Some line
       /\ In (mkPos 0 0) line
       /\ heldBy crossBoard line X = true
       /\ (forall j other,
             j < i -> znth GameOver.WIN_PATTERNS j = Some other ->
             In (mkPos 0 0) other -> heldBy crossBoard other X = false)
       /\ ((forall other,
              In other GameOver.WIN_PATTERNS -> In (mkPos 0 0) other ->
              heldBy crossBoard other X = true ->
              other = [mkPos 0 0; mkPos 1 0; mkPos 2 0]) ->
           line = [mkPos 0 0; mkPos 1 0; mkPos 2 0]
           /\ sameLine line [mkPos 0 0; mkPos 1 0; mkPos 2 0]).
Proof.
  split; [apply wfBoard_boardOf3|]. split; [reflexivity|].
  apply (checkWin_first_held_pattern
           crossBoard [mkPos 0 0; mkPos 1 0; mkPos 2 0] X (mkPos 0 0)).
  - apply wfBoard_boardOf3.
  - simpl. auto 10.
  - reflexivity.
  - simpl. auto.
Defined.

(** C4 after X has completed the top row at (0,2). *)
Lemma checkWin_complete_witness :
  wfBoard topRowBoard
  /\ pieceAt topRowBoard (mkPos 0 2) = Some X
  /\ naiveScan (emptied topRowBoard (mkPos 0 2)) = false
  /\ exists result,
       GameOver.checkWin topRowBoard (mkPos 0 2) = GameOver.Ret result
       /\ (result <> None <-> naiveScan topRowBoard = true).
Proof.
  split; [apply wfBoard_boardOf3|]. split; [reflexivity|].
  split; [reflexivity|].
  apply (checkWin_complete topRowBoard (mkPos 0 2)).
  - apply wfBoard_boardOf3.
  - discriminate.
  - reflexivity.
Defined.

(** C5 at the drawn board. *)
Lemma checkDraw_iff_full_witness :
  wfBoard drawnBoard
  /\ exists full,
       GameOver.checkDraw drawnBoard = GameOver.Ret full
       /\ (full = true <-> boardFull drawnBoard).
Proof.
  split; [apply wfBoard_boardOf3|].
  apply (checkDraw_iff_full drawnBoard). apply wfBoard_boardOf3.
Defined.

(** C6 at a game that O has won: a move at the free cell (1,0) is refused
    with ['game-over']. *)
Lemma validateMove_game_over_witness :
  GameOver.status wonState <> GameOver.ACTIVE
  /\ GameOver.validateMove wonState (mkPos 1 0)
     = GameOver.Ret (GameOver.Failure GameOver.game_over)
  /\ GameOver.game_over <> GameOver.cell_occupied
  /\ GameOver.game_over <> GameOver.invalid_position
  /\ GameOver.game_over <> GameOver.move_in_progress.
Proof.
  split; [discriminate|].
  apply (validateMove_game_over wonState (mkPos 1 0)). discriminate.
Defined.

(** C3 at a game that O has won, for a free cell, an occupied cell and a
    position off the grid. *)
Lemma terminal_status_absorbing_witness :
  GameOver.status wonState <> GameOver.ACTIVE
  /\ (forall pos, GameOver.processMove wonState pos = GameOver.Ret wonState)
  /\ GameOver.processMoves wonState [mkPos 1 0; mkPos 1 1; mkPos 5 0]
     = GameOver.Ret wonState.
Proof.
  split; [discriminate|].
  apply (terminal_status_absorbing wonState [mkPos 1 0; mkPos 1 1; mkPos 5 0]).
  discriminate.
Defined.

(** C1 at the ninth move: X at (2,2) fills the board and completes the main
    diagonal. *)
Lemma processMove_win_before_draw_witness :
  GameOver.validateMove lastMoveState (mkPos 2 2) = GameOver.Ret GameOver.Success
  /\ exists state',
       GameOver.processMove lastMoveState (mkPos 2 2) = GameOver.Ret state'
       /\ GameOver.status state' = GameOver.X_WON
       /\ GameOver.status state' <> GameOver.DRAW
       /\ GameOver.stateWinningLine state' <> None
       /\ GameOver.checkDraw (GameOver.board state') = GameOver.Ret true.
Proof.
  split; [reflexivity|].
  apply (processMove_win_before_draw lastMoveState (mkPos 2 2)).
  - apply wfBoard_boardOf3.
  - reflexivity.
  - reflexivity.
  - exists [mkPos 0 0; mkPos 1 1; mkPos 2 2].
    split; [simpl; auto 10|]. split; reflexivity.
  - intros pos Hpos. apply inBounds_cases in Hpos. simpl in Hpos.
    repeat (destruct Hpos as [<- | Hpos]; [discriminate|]).
    contradiction.
Defined.

(** The scenarios of the detector contract, run on the model. *)
Example scenario_top_row :
  GameOver.checkWin topRowBoard (mkPos 0 2)
  = GameOver.Ret
      (Some {| GameOver.winner := X;
               GameOver.winningLine := [mkPos 0 0; mkPos 0 1; mkPos 0 2] |}).
Proof. reflexivity. Qed.

Example scenario_draw :
  forallb
    (fun pos =>
       match GameOver.checkWin drawnBoard pos with
       | GameOver.Ret None => true
       | _ => false
       end)
    [mkPos 0 0; mkPos 0 1; mkPos 0 2;
     mkPos 1 0; mkPos 1 1; mkPos 1 2;
     mkPos 2 0; mkPos 2 1; mkPos 2 2] = true
  /\ GameOver.checkDraw drawnBoard = GameOver.Ret true.
Proof. split; reflexivity. Qed.

Example scenario_last_move_win :
  GameOver.processMove lastMoveState (mkPos 2 2)
  = GameOver.Ret
      {| GameOver.board := boardOf [[Some X; Some O; Some X];
                                    [Some O; Some X; Some O];
                                    [Some O; Some X; Some X]];
         GameOver.currentTurn := X;
         GameOver.moveInProgress := false;
         GameOver.status := GameOver.X_WON;
         GameOver.stateWinningLine := Some [mkPos 0 0; mkPos 1 1; mkPos 2 2] |}.
Proof. reflexivity. Qed.

Example scenario_out_of_bounds :
  GameOver.validateMove GameOver.createInitialGameState (mkPos 5 0)
  = GameOver.Ret (GameOver.Failure GameOver.invalid_position).
Proof. reflexivity. Qed.

Example scenario_first_move :
  exists b,
    GameOver.processMove GameOver.createInitialGameState (mkPos 0 0)
    = GameOver.Ret
        {| GameOver.board := b;
           GameOver.currentTurn := O;
           GameOver.moveInProgress := false;
           GameOver.status := GameOver.ACTIVE;
           GameOver.stateWinningLine := None |}
    /\ pieceAt b (mkPos 0 0) = Some X.
Proof. eexists. split; reflexivity. Qed.

End ScenarioRuns.

(** * Further properties of the engine as shipped *)

Section ShippedBoard.
Import Current.

Lemma upto_In (n : nat) (i : Z) : In i (upto n) <-> 0 <= i < Z.of_nat n.
Proof.
  unfold upto. rewrite in_map_iff. split.
  - intros (k & <- & Hk). apply in_seq in Hk. lia.
  - intros Hi. exists (Z.to_nat i). split; [lia|]. apply in_seq. lia.
Qed.

Lemma NoDup_map_injective {A B : Type} (f : A -> B) (l : list A) :
  (forall a b, f a = f b -> a = b) -> NoDup l -> NoDup (map f l).
Proof.
  intros Hinj Hl. induction Hl as [|a rest Ha Hrest IH]; simpl; constructor.
  - intros Hin. apply in_map_iff in Hin as (b & Hb & Hin).
    apply Hinj in Hb. subst b. contradiction.
  - exact IH.
Qed.

Lemma upto_NoDup (n : nat) : NoDup (upto n).
Proof.
  unfold upto. apply NoDup_map_injective; [|apply seq_NoDup].
  intros a b Hab. lia.
Qed.

Lemma createEmptyBoard_cell (n : Z) (cell : Cell) :
  In cell (cells (createEmptyBoard n)) <->
  value cell = None
  /\ 0 <= row (position cell) < n
  /\ 0 <= col (position cell) < n.
Proof.
  unfold createEmptyBoard. simpl. rewrite in_flat_map. split.
  - intros (r & Hr & Hcell). apply in_map_iff in Hcell as (c & <- & Hc).
    apply upto_In in Hr. apply upto_In in Hc. simpl.
    split; [reflexivity|lia].
  - intros (Hvalue & Hr & Hc). exists (row (position cell)). split.
    + apply upto_In. lia.
    + apply in_map_iff. exists (col (position cell)). split.
      * destruct cell as [v [r c]]. simpl in *. subst v. reflexivity.
      * apply upto_In. lia.
Qed.




Lemma grid_rows_NoDup (rows cols : list Z) :
  NoDup rows -> NoDup cols ->
  NoDup (flat_map (fun r => map (mkPos r) cols) rows).
Proof.
  intros Hrows Hcols. induction Hrows as [|r rest Hr Hrest IH]; simpl.
  - constructor.
  - apply NoDup_app.
    + apply NoDup_map_injective; [|exact Hcols].
      intros a b Hab. congruence.
    + exact IH.
    + intros pos Hin Hin'. apply in_map_iff in Hin as (c & <- & _).
      apply in_flat_map in Hin' as (r' & Hr' & Hin').
      apply in_map_iff in Hin' as (c' & Heq & _).
      injection Heq as -> _. contradiction.
Qed.

Lemma empty_cells_positions (rows cols : list Z) :
  map position
      (flat_map
         (fun r => map (fun c => {| value := None; position := mkPos r c |}) cols)
         rows)
  = flat_map (fun r => map (mkPos r) cols) rows.
Proof.
  induction rows as [|r rest IH]; simpl; [reflexivity|].
  rewrite map_app, IH, map_map. reflexivity.
Qed.

Lemma createEmptyBoard_position_list (n : Z) :
  map position (cells (createEmptyBoard n))
  = flat_map (fun r => map (mkPos r) (upto (Z.to_nat n))) (upto (Z.to_nat n)).
Proof.
  unfold createEmptyBoard. simpl. apply empty_cells_positions.
Qed.

(** X2. The empty board has exactly one cell for each position of the
    grid and none for any other position. *)
Theorem createEmptyBoard_positions (n : Z) :
  NoDup (map position (cells (createEmptyBoard n)))
  /\ forall pos,
       In pos (map position (cells (createEmptyBoard n)))
       <-> 0 <= row pos < n /\ 0 <= col pos < n.
Proof.
  split.
  - rewrite createEmptyBoard_position_list.
    apply grid_rows_NoDup; apply upto_NoDup.
  - intros pos. rewrite in_map_iff. split.
    + intros (cell & <- & Hcell). apply createEmptyBoard_cell in Hcell. tauto.
    + intros Hpos. exists {| value := None; position := pos |}.
      split; [reflexivity|]. apply createEmptyBoard_cell. simpl. tauto.
Qed.

Lemma updateBoardWithMove_positions (b : Board) (pos : CellPosition) (s : PlayerSymbol) :
  map position (cells (updateBoardWithMove b pos s)) = map position (cells b).
Proof.
  unfold updateBoardWithMove. simpl. rewrite map_map.
  apply map_ext. intros cell. apply placeAt_position.
Qed.

Lemma forallb_over_map {A B : Type} (f : B -> bool) (g : A -> B) (l : list A) :
  forallb f (map g l) = forallb (fun a => f (g a)) l.
Proof.
  induction l as [|a rest IH]; simpl; [reflexivity|]. rewrite IH. reflexivity.
Qed.

Lemma isValidBoard_by_positions (b b' : Board) :
  size b' = size b ->
  map position (cells b') = map position (cells b) ->
  isValidBoard b' = isValidBoard b.
Proof.
  intros Hsize Hpositions. unfold isValidBoard.
  rewrite <- (length_map position (cells b')), Hpositions, length_map, Hsize.
  f_equal.
  transitivity
    (forallb (fun p => (row p >=? 0) && (row p <? size b)
                       && (col p >=? 0) && (col p <? size b))
             (map position (cells b'))).
  - rewrite forallb_over_map. reflexivity.
  - rewrite Hpositions, forallb_over_map. reflexivity.
Qed.

(** X3. [processMove] keeps the shape of the board, whether the move is
    accepted or not: the size, the positions of the cells in their order,
    and the verdict of [isValidBoard]. *)
Theorem processMove_keeps_shape (state : GameState) (pos : CellPosition) :
  size (board (processMove state pos)) = size (board state)
  /\ map position (cells (board (processMove state pos)))
     = map position (cells (board state))
  /\ isValidBoard (board (processMove state pos)) = isValidBoard (board state).
Proof.
  assert (size (board (processMove state pos)) = size (board state)
          /\ map position (cells (board (processMove state pos)))
             = map position (cells (board state))) as [Hsize Hpositions].
  { unfold processMove. destruct (validateMove state pos); simpl.
    - split; [reflexivity|]. apply updateBoardWithMove_positions.
    - split; reflexivity. }
  split; [exact Hsize|]. split; [exact Hpositions|].
  apply isValidBoard_by_positions; assumption.
Qed.

End ShippedBoard.

Section ShippedMoves.
Import Current.

Lemma find_after_placeAt (pos : CellPosition) (s : PlayerSymbol) (cs : list Cell) :
  find (fun c => samePosition (position c) pos) (map (placeAt pos s) cs)
  = option_map (placeAt pos s) (find (fun c => samePosition (position c) pos) cs).
Proof.
  induction cs as [|a rest IH]; simpl; [reflexivity|].
  rewrite placeAt_position.
  destruct (samePosition (position a) pos); [reflexivity|exact IH].
Qed.

Lemma find_position_some (pos : CellPosition) (cs : list Cell) :
  In pos (map position cs) ->
  exists cell,
    find (fun c => samePosition (position c) pos) cs = Some cell
    /\ position cell = pos.
Proof.
  intros Hin.
  destruct (find (fun c => samePosition (position c) pos) cs) as [cell|] eqn:Hfind.
  - exists cell. split; [reflexivity|].
    apply find_some in Hfind as [_ Hsame]. apply samePosition_eq. exact Hsame.
  - exfalso. apply in_map_iff in Hin as (cell & Hpos & Hcell).
    pose proof (find_none _ _ Hfind cell Hcell) as Hno. simpl in Hno.
    assert (samePosition (position cell) pos = true) as Hyes
      by (apply samePosition_eq; exact Hpos).
    congruence.
Qed.

Lemma placeAt_absent (pos : CellPosition) (s : PlayerSymbol) (cs : list Cell) :
  ~ In pos (map position cs) -> map (placeAt pos s) cs = cs.
Proof.
  intros Hout. rewrite <- (map_id cs) at 2. apply map_ext_in.
  intros cell Hcell. apply placeAt_miss.
  destruct (samePosition (position cell) pos) eqn:Hsame; [|reflexivity].
  exfalso. apply Hout. apply in_map_iff. exists cell.
  split; [apply samePosition_eq; exact Hsame|exact Hcell].
Qed.

(** What an accepted move tells about the state and the position. *)
Lemma validateMove_success_inv (state : GameState) (pos : CellPosition) :
  validateMove state pos = Success ->
  moveInProgress state = false
  /\ 0 <= row pos < size (board state)
  /\ 0 <= col pos < size (board state)
  /\ forall cell,
       find (fun c => samePosition (position c) pos) (cells (board state)) = Some cell ->
       value cell = None.
Proof.
  unfold validateMove.
  destruct (moveInProgress state); [discriminate|].
  destruct (Z.ltb_spec (row pos) 0); simpl; [discriminate|].
  destruct (Z.geb_spec (row pos) (size (board state))); simpl; [discriminate|].
  destruct (Z.ltb_spec (col pos) 0); simpl; [discriminate|].
  destruct (Z.geb_spec (col pos) (size (board state))); simpl; [discriminate|].
  intros Hfind. split; [reflexivity|]. split; [lia|]. split; [lia|].
  intros cell Hcell. rewrite Hcell in Hfind.
  destruct (value cell); [discriminate|reflexivity].
Qed.

Lemma processMove_accepted (state : GameState) (pos : CellPosition) :
  validateMove state pos = Success ->
  processMove state pos
  = {| board := updateBoardWithMove (board state) pos (currentTurn state);
       currentTurn := switchTurn (currentTurn state);
       moveInProgress := false |}.
Proof.
  intros Haccepted. unfold processMove. rewrite Haccepted. reflexivity.
Qed.

(** X4. After an accepted move at a position that has a cell, the turn has
    passed to the other player, the lock is released and the cell holds the
    mover's symbol; playing the same position again is refused with
    ['cell-occupied'] and changes nothing. *)
Theorem processMove_accepted_occupies (state : GameState) (pos : CellPosition) :
  validateMove state pos = Success ->
  In pos (map position (cells (board state))) ->
  currentTurn (processMove state pos) = switchTurn (currentTurn state)
  /\ moveInProgress (processMove state pos) = false
  /\ (exists cell,
        find (fun c => samePosition (position c) pos)
             (cells (board (processMove state pos))) = Some cell
        /\ value cell = Some (currentTurn state))
  /\ validateMove (processMove state pos) pos = Failure cell_occupied
  /\ processMove (processMove state pos) pos = processMove state pos.
Proof.
  intros Haccepted Hin.
  destruct (validateMove_success_inv state pos Haccepted)
    as (_ & Hrow & Hcol & _).
  destruct (find_position_some pos _ Hin) as (cell & Hfind & Hpos).
  rewrite (processMove_accepted state pos Haccepted).
  assert (find (fun c => samePosition (position c) pos)
               (map (placeAt pos (currentTurn state)) (cells (board state)))
          = Some {| value := Some (currentTurn state); position := position cell |})
    as Hfound.
  { rewrite find_after_placeAt, Hfind. simpl. unfold placeAt.
    rewrite (proj2 (samePosition_eq _ _) Hpos). reflexivity. }
  assert (validateMove
            {| board := updateBoardWithMove (board state) pos (currentTurn state);
               currentTurn := switchTurn (currentTurn state);
               moveInProgress := false |} pos = Failure cell_occupied) as Hagain.
  { unfold validateMove. simpl.
    destruct (Z.ltb_spec (row pos) 0); [lia|].
    destruct (Z.geb_spec (row pos) (size (board state))); [lia|].
    destruct (Z.ltb_spec (col pos) 0); [lia|].
    destruct (Z.geb_spec (col pos) (size (board state))); [lia|].
    simpl. rewrite Hfound. reflexivity. }
  split; [reflexivity|]. split; [reflexivity|]. split.
  - eexists. split; [exact Hfound|reflexivity].
  - split; [exact Hagain|].
    unfold processMove at 1. rewrite Hagain. reflexivity.
Qed.

(** X5. When no cell of the board has the position, an unlocked move within
    the bounds is accepted all the same: the board comes back as it was and
    the turn still passes to the other player. *)
Theorem processMove_without_cell (state : GameState) (pos : CellPosition) :
  moveInProgress state = false ->
  0 <= row pos < size (board state) ->
  0 <= col pos < size (board state) ->
  ~ In pos (map position (cells (board state))) ->
  validateMove state pos = Success
  /\ processMove state pos
     = {| board := board state;
          currentTurn := switchTurn (currentTurn state);
          moveInProgress := false |}.
Proof.
  intros Hlock Hrow Hcol Hout.
  assert (validateMove state pos = Success) as Haccepted.
  { unfold validateMove. rewrite Hlock.
    destruct (Z.ltb_spec (row pos) 0); [lia|].
    destruct (Z.geb_spec (row pos) (size (board state))); [lia|].
    destruct (Z.ltb_spec (col pos) 0); [lia|].
    destruct (Z.geb_spec (col pos) (size (board state))); [lia|].
    simpl.
    destruct (find _ (cells (board state))) as [cell|] eqn:Hfind; [|reflexivity].
    exfalso. apply find_some in Hfind as [Hcell Hsame].
    apply Hout. apply in_map_iff. exists cell.
    split; [apply samePosition_eq; exact Hsame|exact Hcell]. }
  split; [exact Haccepted|].
  rewrite (processMove_accepted state pos Haccepted). f_equal.
  unfold updateBoardWithMove. rewrite placeAt_absent by exact Hout.
  destruct (board state). reflexivity.
Qed.

Lemma same_position_same_cell (cs : list Cell) (a b : Cell) :
  NoDup (map position cs) -> In a cs -> In b cs ->
  position a = position b -> a = b.
Proof.
  induction cs as [|c rest IH]; simpl; intros Hnodup Ha Hb Hpos; [contradiction|].
  inversion Hnodup as [|? ? Hfresh Hrest]; subst.
  destruct Ha as [-> | Ha], Hb as [-> | Hb].
  - reflexivity.
  - exfalso. apply Hfresh. rewrite Hpos. apply in_map. exact Hb.
  - exfalso. apply Hfresh. rewrite <- Hpos. apply in_map. exact Ha.
  - apply IH; assumption.
Qed.

(** X6. On a board with one cell per position, a mark once placed is never
    changed: whatever the move, a cell that holds a symbol is found at the
    same index with the same symbol afterwards. *)
Theorem processMove_keeps_marks
    (state : GameState) (pos : CellPosition) (i : nat) (cell : Cell) :
  NoDup (map position (cells (board state))) ->
  nth_error (cells (board state)) i = Some cell ->
  value cell <> None ->
  nth_error (cells (board (processMove state pos))) i = Some cell.
Proof.
  intros Hnodup Hcell Hmarked. unfold processMove.
  destruct (validateMove state pos) eqn:Hvalidation; [|exact Hcell].
  simpl. erewrite map_nth_error by exact Hcell. f_equal.
  apply placeAt_miss.
  destruct (samePosition (position cell) pos) eqn:Hsame; [|reflexivity].
  exfalso. apply samePosition_eq in Hsame.
  destruct (validateMove_success_inv state pos Hvalidation) as (_ & _ & _ & Hempty).
  assert (In pos (map position (cells (board state)))) as Hin.
  { rewrite <- Hsame. apply in_map. eapply nth_error_In. exact Hcell. }
  destruct (find_position_some pos _ Hin) as (first & Hfind & Hfirst).
  pose proof (Hempty first Hfind) as Hvalue.
  apply find_some in Hfind as [Hfirstin _].
  assert (first = cell) as ->.
  { apply (same_position_same_cell (cells (board state))); try assumption.
    - eapply nth_error_In. exact Hcell.
    - congruence. }
  contradiction.
Qed.

End ShippedMoves.

Section ShippedPlay.
Import Current Play.

Lemma floor_cell (x cellSize q : Z) :
  0 < cellSize ->
  x / cellSize = q <-> cellSize * q <= x < cellSize * (q + 1).
Proof.
  intros Hsize.
  pose proof (Z.div_mod x cellSize ltac:(lia)) as Hdiv.
  pose proof (Z.mod_pos_bound x cellSize Hsize) as Hmod.
  split.
  - intros <-. nia.
  - intros Hq. nia.
Qed.


(** X8. On a board of the configured size, a pointer event inside the
    450-pixel canvas is a move at row [y / 150] and column [x / 150], never
    refused as ['invalid-position']; a pointer event outside leaves the
    state as it is. *)
Theorem handlePointerDown_cell (state : GameState) (x y : Z) :
  size (board state) = GRID_SIZE ->
  (0 <= x < 450 /\ 0 <= y < 450 ->
   handlePointerDown state (x, y) = processMove state (mkPos (y / 150) (x / 150))
   /\ validateMove state (mkPos (y / 150) (x / 150)) <> Failure invalid_position)
  /\ (~ (0 <= x < 450 /\ 0 <= y < 450) ->
      handlePointerDown state (x, y) = state).
Proof.
  intros Hboard. unfold handlePointerDown, getCellFromCoordinates, CELL_SIZE, GRID_SIZE.
  simpl fst. simpl snd. simpl (150 =? 0).
  pose proof (proj1 (floor_cell x 150 (x / 150) ltac:(lia)) eq_refl) as Hx.
  pose proof (proj1 (floor_cell y 150 (y / 150) ltac:(lia)) eq_refl) as Hy.
  split.
  - intros [Hxin Hyin].
    destruct (Z.geb_spec (y / 150) 0); [|lia].
    destruct (Z.ltb_spec (y / 150) 3); [|lia].
    destruct (Z.geb_spec (x / 150) 0); [|lia].
    destruct (Z.ltb_spec (x / 150) 3); [|lia].
    simpl. split; [reflexivity|].
    unfold validateMove. rewrite Hboard. unfold GRID_SIZE. simpl.
    destruct (moveInProgress state); [discriminate|].
    destruct (Z.ltb_spec (y / 150) 0); [lia|].
    destruct (Z.geb_spec (y / 150) 3); [lia|].
    destruct (Z.ltb_spec (x / 150) 0); [lia|].
    destruct (Z.geb_spec (x / 150) 3); [lia|].
    simpl. destruct (find _ _) as [cell|]; [|discriminate].
    destruct (value cell); discriminate.
  - intros Hout.
    destruct (Z.geb_spec (y / 150) 0); simpl; [|reflexivity].
    destruct (Z.ltb_spec (y / 150) 3); simpl; [|reflexivity].
    destruct (Z.geb_spec (x / 150) 0); simpl; [|reflexivity].
    destruct (Z.ltb_spec (x / 150) 3); simpl; [|reflexivity].
    exfalso. apply Hout. lia.
Qed.



Lemma gridPositions_NoDup : NoDup gridPositions.
Proof.
  unfold gridPositions.
  repeat (constructor; [simpl; intuition discriminate|]). constructor.
Qed.




End ShippedPlay.

(** * Further properties of the game-over detection feature *)

Section DetectorResults.
Import GameOver Spec.

Lemma pattern_length (pattern : list CellPosition) :
  In pattern WIN_PATTERNS -> length pattern = 3%nat.
Proof.
  intros HP. simpl in HP.
  repeat (destruct HP as [<- | HP]; [reflexivity|]). contradiction.
Qed.

(** At a cell that holds a player's mark, on a well-formed board,
    [checkWin] is [firstHeld] over the relevant patterns. *)
Lemma checkWin_at_mark (b : Board) (pos : CellPosition) (player : PlayerSymbol) :
  wfBoard b ->
  pieceAt b pos = Some player ->
  checkWin b pos = Ret (firstHeld b player (getRelevantPatternIndices pos)).
Proof.
  intros Hwf Hpiece.
  destruct (pieceAt_getCell b pos player Hpiece) as (cell & Hcell & Hcellpiece).
  pose proof (wfBoard_getCell_inBounds b pos cell Hwf Hcell) as Hpos.
  unfold checkWin. rewrite Hcell, Hcellpiece.
  apply checkWinLoop_firstHeld; [exact Hwf|].
  apply relevant_indices_range. exact Hpos.
Qed.

Lemma checkWin_result_cases (b : Board) (pos : CellPosition) (r : option WinResult) :
  checkWin b pos = Ret r ->
  (pieceAt b pos = None /\ r = None)
  \/ exists player, pieceAt b pos = Some player.
Proof.
  unfold checkWin, pieceAt.
  destruct (getCell b (row pos) (col pos)) as [cell|]; [|discriminate].
  destruct (piece cell) as [player|].
  - intros _. right. exists player. reflexivity.
  - intros [= <-]. left. split; reflexivity.
Qed.

(** X10. A win that [checkWin] reports is real: the winner is the symbol at
    the last move, and the line is one of the 8 patterns, of three cells,
    through the last move, all held by the winner. *)
Theorem checkWin_sound (b : Board) (pos : CellPosition) (w : WinResult) :
  wfBoard b ->
  checkWin b pos = Ret (Some w) ->
  pieceAt b pos = Some (winner w)
  /\ In (winningLine w) WIN_PATTERNS
  /\ length (winningLine w) = 3%nat
  /\ In pos (winningLine w)
  /\ heldBy b (winningLine w) (winner w) = true.
Proof.
  intros Hwf Hwin.
  destruct (checkWin_result_cases b pos _ Hwin) as [[_ Hnone] | [player Hpiece]];
    [discriminate|].
  rewrite (checkWin_at_mark b pos player Hwf Hpiece) in Hwin.
  injection Hwin as Hfirst.
  destruct (firstHeld_winner b player _ w Hfirst) as (Hwinner & i & Hi & Hline & Hheld).
  destruct (pieceAt_getCell b pos player Hpiece) as (cell & Hcell & _).
  pose proof (wfBoard_getCell_inBounds b pos cell Hwf Hcell) as Hpos.
  destruct (znth_WIN_PATTERNS_In i _ Hline) as [Hpattern _].
  rewrite Hwinner.
  split; [exact Hpiece|]. split; [exact Hpattern|].
  split; [apply pattern_length; exact Hpattern|].
  split; [|exact Hheld].
  apply (relevant_iff_through pos i (winningLine w) Hpos Hline). exact Hi.
Qed.

(** X11. On a well-formed board, for a position of the grid, [checkWin]
    returns null exactly when no pattern through the position is held by a
    single symbol; in particular it returns null at an empty cell, whatever
    lines the rest of the board holds. *)
Theorem checkWin_none_iff (b : Board) (pos : CellPosition) :
  wfBoard b ->
  inBounds pos ->
  (checkWin b pos = Ret None
   <-> forall pattern s,
         In pattern WIN_PATTERNS -> In pos pattern -> heldBy b pattern s = false)
  /\ (pieceAt b pos = None -> checkWin b pos = Ret None).
Proof.
  intros Hwf Hpos.
  destruct (wfBoard_getCell b pos Hwf Hpos) as [cell Hcell].
  pose proof (relevant_indices_range pos Hpos) as Hrange.
  assert (pieceAt b pos = None -> checkWin b pos = Ret None) as Hempty.
  { unfold pieceAt, checkWin. rewrite Hcell. intros ->. reflexivity. }
  split; [|exact Hempty]. split.
  - intros Hnone pattern s HP Hin.
    destruct (heldBy b pattern s) eqn:Hheld; [|reflexivity]. exfalso.
    pose proof (heldBy_pieceAt b pattern s pos Hheld Hin) as Hpiece.
    rewrite (checkWin_at_mark b pos s Hwf Hpiece) in Hnone.
    injection Hnone as Hfirst.
    destruct (In_WIN_PATTERNS_znth pattern HP) as (i & _ & Hnth).
    assert (In i (getRelevantPatternIndices pos)) as Hrel
      by (apply (relevant_iff_through pos i pattern Hpos Hnth); exact Hin).
    pose proof (firstHeld_none b s _ i pattern Hfirst Hrange Hrel Hnth).
    congruence.
  - intros Hnoline.
    destruct (pieceAt b pos) as [player|] eqn:Hpiece; [|apply Hempty; reflexivity].
    rewrite (checkWin_at_mark b pos player Hwf Hpiece).
    destruct (firstHeld b player (getRelevantPatternIndices pos)) as [w|] eqn:Hfirst;
      [|reflexivity].
    exfalso.
    destruct (firstHeld_winner b player _ w Hfirst) as (_ & i & Hi & Hline & Hheld).
    destruct (znth_WIN_PATTERNS_In i _ Hline) as [Hpattern _].
    rewrite (Hnoline (winningLine w) player Hpattern) in Hheld; [discriminate|].
    apply (relevant_iff_through pos i (winningLine w) Hpos Hline). exact Hi.
Qed.

(** X12. For a pattern whose positions are on a well-formed board,
    [isWinningLine] returns, and returns true exactly when every cell of
    the pattern holds the player's symbol. *)
Theorem isWinningLine_iff
    (b : Board) (pattern : list CellPosition) (player : PlayerSymbol) :
  wfBoard b ->
  (forall pos, In pos pattern -> inBounds pos) ->
  exists held,
    isWinningLine b pattern player = Ret held
    /\ (held = true <-> forall pos, In pos pattern -> pieceAt b pos = Some player).
Proof.
  intros Hwf Hpattern. exists (heldBy b pattern player). split.
  - apply isWinningLine_heldBy. intros pos Hin.
    apply wfBoard_getCell; [exact Hwf|]. apply Hpattern. exact Hin.
  - unfold heldBy. rewrite forallb_forall. split.
    + intros Hall pos Hin. apply piece_is_true. apply Hall. exact Hin.
    + intros Hall pos Hin. apply piece_is_true. apply Hall. exact Hin.
Qed.

End DetectorResults.

Section DrawOnSquares.
Import GameOver Spec.

Lemma znth_of_nat {A : Type} (xs : list A) (k : nat) :
  znth xs (Z.of_nat k) = nth_error xs k.
Proof.
  rewrite znth_nonneg by lia. rewrite Nat2Z.id. reflexivity.
Qed.

Lemma skipn_at {A : Type} (xs : list A) (k : nat) (a : A) :
  nth_error xs k = Some a -> skipn k xs = a :: skipn (S k) xs.
Proof.
  revert k. induction xs as [|x rest IH]; intros [|k] Hnth; simpl in *;
    try discriminate.
  - injection Hnth as ->. reflexivity.
  - apply IH. exact Hnth.
Qed.

(** The inner loop over the columns [k, k+1, ..., k+m-1] of a row. *)
Lemma checkDrawCols_run (b : Board) (r : nat) (cellsOfRow : list Cell) (m k : nat) :
  nth_error b r = Some cellsOfRow ->
  (k + m <= length cellsOfRow)%nat ->
  checkDrawCols b (Z.of_nat r) (map Z.of_nat (seq k m))
  = Ret (forallb (fun cell => match piece cell with Some _ => true | None => false end)
                 (firstn m (skipn k cellsOfRow))).
Proof.
  intros Hrow. revert k. induction m as [|m IH]; intros k Hfit; simpl;
    [reflexivity|].
  unfold getCell. rewrite znth_of_nat, Hrow, znth_of_nat.
  destruct (nth_error cellsOfRow k) as [cell|] eqn:Hcell.
  - rewrite (skipn_at _ _ _ Hcell). simpl.
    destruct (piece cell); [|reflexivity].
    simpl. apply IH. lia.
  - apply nth_error_None in Hcell. lia.
Qed.

(** The outer loop over the rows [k, k+1, ..., k+m-1]. *)
Lemma checkDrawRows_run (b : Board) (n m k : nat) :
  Forall (fun cellsOfRow => length cellsOfRow = n) b ->
  (k + m <= length b)%nat ->
  checkDrawRows b (map Z.of_nat (seq k m)) (upto n)
  = Ret (allFilled (firstn m (skipn k b))).
Proof.
  intros Hsquare. revert k. induction m as [|m IH]; intros k Hfit; simpl;
    [reflexivity|].
  destruct (nth_error b k) as [cellsOfRow|] eqn:Hrow.
  - assert (length cellsOfRow = n) as Hlength.
    { rewrite Forall_forall in Hsquare. apply Hsquare.
      eapply nth_error_In. exact Hrow. }
    unfold upto at 1.
    rewrite (checkDrawCols_run b k cellsOfRow n 0 Hrow) by lia.
    simpl skipn. rewrite <- Hlength, firstn_all.
    rewrite (skipn_at _ _ _ Hrow). simpl.
    destruct (forallb _ cellsOfRow); [|reflexivity].
    simpl. rewrite Hlength. apply IH. lia.
  - apply nth_error_None in Hrow. lia.
Qed.

(** X13. On every square board, of any size, [checkDraw] returns without
    throwing and says whether all the cells are filled; on the board of no
    rows it says true. *)
Theorem checkDraw_square (b : Board) :
  Forall (fun cellsOfRow => length cellsOfRow = length b) b ->
  checkDraw b = Ret (allFilled b)
  /\ (b = [] -> checkDraw b = Ret true).
Proof.
  intros Hsquare. split.
  - unfold checkDraw. unfold upto at 1.
    rewrite (checkDrawRows_run b (length b) (length b) 0 Hsquare) by lia.
    simpl skipn. rewrite firstn_all. reflexivity.
  - intros ->. reflexivity.
Qed.

End DrawOnSquares.

Section Transitions.
Import GameOver Spec.




(** The result of an accepted move on a well-formed board, case by case. *)
Lemma processMove_accepted_result (state : GameState) (pos : CellPosition) :
  wfBoard (board state) ->
  validateMove state pos = Ret Success ->
  processMove state pos
  = Ret
      (let newBoard :=
         setCellValue (board state) (row pos) (col pos) (currentTurn state) in
       match firstHeld newBoard (currentTurn state) (getRelevantPatternIndices pos) with
       | Some w =>
           {| board := newBoard;
              currentTurn := currentTurn state;
              moveInProgress := false;
              status := wonStatus (currentTurn state);
              stateWinningLine := Some (winningLine w) |}
       | None =>
           if allFilled newBoard
           then {| board := newBoard;
                   currentTurn := currentTurn state;
                   moveInProgress := false;
                   status := DRAW;
                   stateWinningLine := stateWinningLine state |}
           else {| board := newBoard;
                   currentTurn := switchTurn (currentTurn state);
                   moveInProgress := false;
                   status := ACTIVE;
                   stateWinningLine := stateWinningLine state |}
       end).
Proof.
  intros Hwf Haccepted.
  destruct (validateMove_accepted state pos Haccepted)
    as (_ & _ & Hpos & cell & Hcell & _).
  assert (wfBoard (setCellValue (board state) (row pos) (col pos) (currentTurn state)))
    as Hwf' by (apply writeCell_wfBoard; exact Hwf).
  assert (pieceAt (setCellValue (board state) (row pos) (col pos) (currentTurn state)) pos
          = Some (currentTurn state)) as Hmark.
  { unfold pieceAt, setCellValue.
    rewrite (getCell_writeCell_same _ _ _ _ cell Hcell). reflexivity. }
  unfold processMove. rewrite Haccepted. simpl.
  rewrite (checkWin_at_mark _ pos (currentTurn state) Hwf' Hmark). simpl.
  destruct (firstHeld _ (currentTurn state) (getRelevantPatternIndices pos))
    as [w|] eqn:Hfirst.
  - destruct (firstHeld_winner _ _ _ w Hfirst) as [-> _].
    destruct (winner w); reflexivity.
  - rewrite (checkDraw_allFilled _ Hwf'). simpl.
    destruct (allFilled _); reflexivity.
Qed.

Lemma processMove_board_after (state state' : GameState) (pos : CellPosition) :
  validateMove state pos = Ret Success ->
  processMove state pos = Ret state' ->
  board state'
  = setCellValue (board state) (row pos) (col pos) (currentTurn state).
Proof.
  intros Haccepted. unfold processMove. rewrite Haccepted. simpl.
  destruct (checkWin _ pos) as [[w|]|]; simpl; [| |discriminate].
  - intros [= <-]. reflexivity.
  - destruct (checkDraw _) as [[|]|]; simpl; [| |discriminate];
      intros [= <-]; reflexivity.
Qed.


(** X16. An accepted move that leaves the mover holding a pattern through
    the position played ends the game for the mover, on any board, full or
    not: the turn is not switched, the lock is released, and the line
    recorded is a pattern through the position that the mover holds. *)
Theorem processMove_win_records_line
    (state : GameState) (pos : CellPosition) (pattern : list CellPosition) :
  wfBoard (board state) ->
  validateMove state pos = Ret Success ->
  In pattern WIN_PATTERNS ->
  In pos pattern ->
  heldBy (setCellValue (board state) (row pos) (col pos) (currentTurn state))
         pattern (currentTurn state) = true ->
  exists line,
    processMove state pos
    = Ret {| board := setCellValue (board state) (row pos) (col pos) (currentTurn state);
             currentTurn := currentTurn state;
             moveInProgress := false;
             status := wonStatus (currentTurn state);
             stateWinningLine := Some line |}
    /\ In line WIN_PATTERNS
    /\ In pos line
    /\ heldBy (setCellValue (board state) (row pos) (col pos) (currentTurn state))
              line (currentTurn state) = true.
Proof.
  intros Hwf Haccepted HP Hin Hheld.
  pose proof (pattern_inBounds pattern pos HP Hin) as Hpos.
  assert (wfBoard (setCellValue (board state) (row pos) (col pos) (currentTurn state)))
    as Hwf' by (apply writeCell_wfBoard; exact Hwf).
  destruct (checkWin_held_found _ pattern (currentTurn state) pos Hwf' HP Hheld Hin)
    as (w & Hfirst & _).
  destruct (firstHeld_winner _ _ _ w Hfirst) as (_ & i & Hi & Hline & Hlineheld).
  exists (winningLine w).
  rewrite (processMove_accepted_result state pos Hwf Haccepted). simpl.
  rewrite Hfirst.
  split; [reflexivity|].
  split; [apply (znth_WIN_PATTERNS_In i); exact Hline|].
  split; [|exact Hlineheld].
  apply (relevant_iff_through pos i (winningLine w) Hpos Hline). exact Hi.
Qed.

(** X17. An accepted move after which the mover holds no pattern through
    the position played: if the board is then full the game is a DRAW and
    the turn stays; otherwise the game stays ACTIVE and the turn passes.
    Either way the recorded line is left as it was. *)
Theorem processMove_without_win (state : GameState) (pos : CellPosition) :
  wfBoard (board state) ->
  validateMove state pos = Ret Success ->
  (forall pattern,
     In pattern WIN_PATTERNS -> In pos pattern ->
     heldBy (setCellValue (board state) (row pos) (col pos) (currentTurn state))
            pattern (currentTurn state) = false) ->
  exists state',
    processMove state pos = Ret state'
    /\ board state'
       = setCellValue (board state) (row pos) (col pos) (currentTurn state)
    /\ moveInProgress state' = false
    /\ stateWinningLine state' = stateWinningLine state
    /\ (boardFull (board state') ->
        status state' = DRAW /\ currentTurn state' = currentTurn state)
    /\ (~ boardFull (board state') ->
        status state' = ACTIVE
        /\ currentTurn state' = switchTurn (currentTurn state)).
Proof.
  intros Hwf Haccepted Hnoline.
  destruct (validateMove_accepted state pos Haccepted) as (_ & _ & Hpos & _).
  assert (wfBoard (setCellValue (board state) (row pos) (col pos) (currentTurn state)))
    as Hwf' by (apply writeCell_wfBoard; exact Hwf).
  rewrite (processMove_accepted_result state pos Hwf Haccepted). simpl.
  destruct (firstHeld _ (currentTurn state) (getRelevantPatternIndices pos))
    as [w|] eqn:Hfirst.
  - exfalso.
    destruct (firstHeld_winner _ _ _ w Hfirst) as (_ & i & Hi & Hline & Hheld).
    rewrite (Hnoline (winningLine w)) in Hheld; [discriminate| |].
    + apply (znth_WIN_PATTERNS_In i). exact Hline.
    + apply (relevant_iff_through pos i (winningLine w) Hpos Hline). exact Hi.
  - destruct (allFilled _) eqn:Hfilled; eexists;
      (split; [reflexivity|]); simpl;
      (split; [reflexivity|]); (split; [reflexivity|]);
      (split; [reflexivity|]); split.
    + intros _. split; reflexivity.
    + intros Hnotfull. exfalso. apply Hnotfull.
      intros p Hp. apply allFilled_pieceAt; assumption.
    + intros Hfull. apply (boardFull_allFilled _ Hwf') in Hfull. congruence.
    + intros _. split; reflexivity.
Qed.

(** X18. [processMove] never erases or overwrites a mark: a cell that holds
    a symbol before the call holds the same symbol in the state returned. *)
Theorem processMove_keeps_pieces
    (state state' : GameState) (pos p : CellPosition) (s : PlayerSymbol) :
  processMove state pos = Ret state' ->
  pieceAt (board state) p = Some s ->
  pieceAt (board state') p = Some s.
Proof.
  intros Hmove Hpiece.
  destruct (validateMove state pos) as [[|reason]|] eqn:Hvalidation.
  - rewrite (processMove_board_after state state' pos Hvalidation Hmove).
    destruct (validateMove_accepted state pos Hvalidation)
      as (_ & _ & _ & cell & Hcell & Hempty).
    unfold setCellValue. rewrite pieceAt_writeCell_other; [exact Hpiece|].
    intros ->. unfold pieceAt in Hpiece. rewrite Hcell in Hpiece. congruence.
  - rewrite (processMove_rejected state pos reason Hvalidation) in Hmove.
    injection Hmove as <-. exact Hpiece.
  - unfold processMove in Hmove. rewrite Hvalidation in Hmove. discriminate.
Qed.

End Transitions.

Section ReachableStates.
Import GameOver Spec Play.








End ReachableStates.

(** * The further properties at the scenarios *)

Section FurtherRuns.
Import Spec Scenarios MoreScenarios Play.


(** X4 at the first move of a game. *)
Lemma processMove_accepted_occupies_witness :
  Current.validateMove Current.createInitialGameState (mkPos 0 0) = Current.Success
  /\ Current.validateMove openedState (mkPos 0 0)
     = Current.Failure Current.cell_occupied
  /\ Current.processMove openedState (mkPos 0 0) = openedState.
Proof.
  split; [reflexivity|].
  apply (processMove_accepted_occupies Current.createInitialGameState (mkPos 0 0)).
  - reflexivity.
  - simpl. auto.
Defined.

(** X5 on the board without cells: the move at the center is taken and only
    the turn changes. *)
Lemma processMove_without_cell_witness :
  Current.validateMove cellLessState (mkPos 1 1) = Current.Success
  /\ Current.processMove cellLessState (mkPos 1 1)
     = {| Current.board := Current.board cellLessState;
          Current.currentTurn := O;
          Current.moveInProgress := false |}.
Proof.
  apply (processMove_without_cell cellLessState (mkPos 1 1)).
  - reflexivity.
  - simpl. lia.
  - simpl. lia.
  - simpl. auto.
Defined.

(** X6: the X of the first cell is still there after O plays the center. *)
Lemma processMove_keeps_marks_witness :
  nth_error (Current.cells (Current.board openedState)) 0
  = Some {| Current.value := Some X; Current.position := mkPos 0 0 |}
  /\ nth_error
       (Current.cells (Current.board (Current.processMove openedState (mkPos 1 1)))) 0
     = Some {| Current.value := Some X; Current.position := mkPos 0 0 |}.
Proof.
  split; [reflexivity|].
  apply (processMove_keeps_marks openedState (mkPos 1 1) 0).
  - apply gridPositions_NoDup.
  - reflexivity.
  - discriminate.
Defined.


(** X8 for a pointer event at (200, 40) on the initial state. *)
Lemma handlePointerDown_cell_witness :
  handlePointerDown Current.createInitialGameState (200, 40)
  = Current.processMove Current.createInitialGameState (mkPos (40 / 150) (200 / 150))
  /\ Current.validateMove Current.createInitialGameState (mkPos (40 / 150) (200 / 150))
     <> Current.Failure Current.invalid_position.
Proof.
  apply (handlePointerDown_cell Current.createInitialGameState 200 40).
  - reflexivity.
  - lia.
Defined.

(** X10 where X has completed the top row. *)
Lemma checkWin_sound_witness :
  pieceAt topRowBoard (mkPos 0 2) = Some X
  /\ In [mkPos 0 0; mkPos 0 1; mkPos 0 2] GameOver.WIN_PATTERNS
  /\ length [mkPos 0 0; mkPos 0 1; mkPos 0 2] = 3%nat
  /\ In (mkPos 0 2) [mkPos 0 0; mkPos 0 1; mkPos 0 2]
  /\ heldBy topRowBoard [mkPos 0 0; mkPos 0 1; mkPos 0 2] X = true.
Proof.
  apply (checkWin_sound topRowBoard (mkPos 0 2)
           {| GameOver.winner := X;
              GameOver.winningLine := [mkPos 0 0; mkPos 0 1; mkPos 0 2] |}).
  - apply wfBoard_boardOf3.
  - reflexivity.
Defined.

(** X11 at the empty cell (1,2) next to the completed top row. *)
Lemma checkWin_none_iff_witness :
  (GameOver.checkWin topRowBoard (mkPos 1 2) = GameOver.Ret None
   <-> forall pattern s,
         In pattern GameOver.WIN_PATTERNS -> In (mkPos 1 2) pattern ->
         heldBy topRowBoard pattern s = false)
  /\ (pieceAt topRowBoard (mkPos 1 2) = None ->
      GameOver.checkWin topRowBoard (mkPos 1 2) = GameOver.Ret None).
Proof.
  apply (checkWin_none_iff topRowBoard (mkPos 1 2)).
  - apply wfBoard_boardOf3.
  - unfold inBounds. simpl. lia.
Defined.

(** X12 for the top row held by X. *)
Lemma isWinningLine_iff_witness :
  exists held,
    GameOver.isWinningLine topRowBoard [mkPos 0 0; mkPos 0 1; mkPos 0 2] X
    = GameOver.Ret held
    /\ (held = true
        <-> forall pos,
              In pos [mkPos 0 0; mkPos 0 1; mkPos 0 2] ->
              pieceAt topRowBoard pos = Some X).
Proof.
  apply (isWinningLine_iff topRowBoard [mkPos 0 0; mkPos 0 1; mkPos 0 2] X).
  - apply wfBoard_boardOf3.
  - intros pos Hin.
    apply (pattern_inBounds [mkPos 0 0; mkPos 0 1; mkPos 0 2]); [|exact Hin].
    simpl. auto.
Defined.

(** X13 at the drawn board. *)
Lemma checkDraw_square_witness :
  GameOver.checkDraw drawnBoard = GameOver.Ret (allFilled drawnBoard)
  /\ (drawnBoard = [] -> GameOver.checkDraw drawnBoard = GameOver.Ret true).
Proof.
  apply (checkDraw_square drawnBoard). repeat constructor.
Defined.



(** X16 where X completes the top row with cells still empty. *)
Lemma processMove_win_records_line_witness :
  exists line,
    GameOver.processMove topRowState (mkPos 0 2)
    = GameOver.Ret
        {| GameOver.board := topRowBoard;
           GameOver.currentTurn := X;
           GameOver.moveInProgress := false;
           GameOver.status := GameOver.X_WON;
           GameOver.stateWinningLine := Some line |}
    /\ In line GameOver.WIN_PATTERNS
    /\ In (mkPos 0 2) line
    /\ heldBy topRowBoard line X = true.
Proof.
  apply (processMove_win_records_line
           topRowState (mkPos 0 2) [mkPos 0 0; mkPos 0 1; mkPos 0 2]).
  - apply wfBoard_boardOf3.
  - reflexivity.
  - simpl. auto.
  - simpl. auto.
  - reflexivity.
Defined.

(** X17 at the ninth move when it completes no line. *)
Lemma processMove_without_win_witness :
  exists state',
    GameOver.processMove lastCellState (mkPos 2 2) = GameOver.Ret state'
    /\ GameOver.board state'
       = GameOver.setCellValue (GameOver.board lastCellState) 2 2 X
    /\ GameOver.moveInProgress state' = false
    /\ GameOver.stateWinningLine state' = None
    /\ (boardFull (GameOver.board state') ->
        GameOver.status state' = GameOver.DRAW
        /\ GameOver.currentTurn state' = X)
    /\ (~ boardFull (GameOver.board state') ->
        GameOver.status state' = GameOver.ACTIVE
        /\ GameOver.currentTurn state' = O).
Proof.
  apply (processMove_without_win lastCellState (mkPos 2 2)).
  - apply wfBoard_boardOf3.
  - reflexivity.
  - intros pattern HP Hin. simpl in HP.
    repeat (destruct HP as [<- | HP]; [try reflexivity|]);
      try contradiction;
      simpl in Hin; intuition discriminate.
Defined.

(** X18: the X of the first cell is still there after the ninth move. *)
Lemma processMove_keeps_pieces_witness :
  pieceAt (GameOver.board lastMoveState) (mkPos 0 0) = Some X
  /\ pieceAt
       (boardOf [[Some X; Some O; Some X];
                 [Some O; Some X; Some O];
                 [Some O; Some X; Some X]])
       (mkPos 0 0) = Some X.
Proof.
  split; [reflexivity|].
  apply (processMove_keeps_pieces
           lastMoveState
           {| GameOver.board := boardOf [[Some X; Some O; Some X];
                                         [Some O; Some X; Some O];
                                         [Some O; Some X; Some X]];
              GameOver.currentTurn := X;
              GameOver.moveInProgress := false;
              GameOver.status := GameOver.X_WON;
              GameOver.stateWinningLine := Some [mkPos 0 0; mkPos 1 1; mkPos 2 2] |}
           (mkPos 2 2) (mkPos 0 0) X).
  - reflexivity.
  - reflexivity.
Defined.


End FurtherRuns.
